(** * Algo-Trading: the IEX Cloud client and the tabular analysis layer

    A shallow embedding of [src/iex_api.py] (class [IEXApi]) and of
    [src/analysis.py] (class [Analysis]), with the properties the
    specification states about them.

    Conventions of the embedding.
    - Python values that reach the request builder are the inductive
      [Py.value]; the guard [isinstance(x, list)] is a match on it.
    - Exceptions are data ([Py.exn]); a call either returns ([Ok]) or
      raises ([Raise]).
    - The logger and the HTTP stack are the only effects.  They are threaded
      as a [World]: the records handed to the logger and the URLs handed to
      [requests.get], in order.  What the remote server answers is the
      environment function of [Section Client].
    - pandas is an external library: its operations are embedded by the
      algorithm they run, on frames whose numeric cells are rationals
      ([None] is NaN).  Rounding of IEEE doubles is not modelled, and the
      text of the messages of its exceptions is a parameter ([Wording]). *)

From Stdlib Require Import String Ascii List Bool Arith ZArith QArith Lia.
From Stdlib Require Import DecimalString Permutation Sorted.
Import ListNotations.

Set Warnings "-register-all".
Close Scope Q_scope.
Open Scope nat_scope.
Open Scope list_scope.
Open Scope string_scope.

(* ================================================================== *)
(** * Python values, exceptions and results *)
(* ================================================================== *)

Module Py.

(** The values a caller can pass for [request_type], [symbols] and
    [data_set]. *)
Inductive value : Type :=
| PyNone
| PyStr (s : string)
| PyInt (z : Z)
| PyList (items : list value).

Definition type_name (v : value) : string :=
  match v with
  | PyNone => "NoneType"
  | PyStr _ => "str"
  | PyInt _ => "int"
  | PyList _ => "list"
  end.

(** [isinstance(v, list)] *)
Definition isinstance_list (v : value) : bool :=
  match v with PyList _ => true | _ => false end.

(** [v is None] *)
Definition is_None (v : value) : bool :=
  match v with PyNone => true | _ => false end.

(** [v == "literal"]: only a [str] compares equal to a [str]. *)
Definition eq_str (v : value) (lit : string) : bool :=
  match v with PyStr s => String.eqb s lit | _ => false end.

Inductive exn : Type :=
| TypeError (msg : string)
| NotImplementedError
| ValueError (msg : string)
| KeyError (key : string)
| AttributeError (msg : string)
| RequestException (msg : string)
| KeyboardInterrupt.

(** [isinstance(e, Exception)]: what an [except Exception] clause
    catches.  [KeyboardInterrupt] derives from [BaseException] only. *)
Definition is_Exception (e : exn) : bool :=
  match e with KeyboardInterrupt => false | _ => true end.

(** [str(e)] *)
Definition exn_str (e : exn) : string :=
  match e with
  | TypeError m | ValueError m | AttributeError m | RequestException m => m
  | KeyError k => "'" ++ k ++ "'"
  | NotImplementedError | KeyboardInterrupt => ""
  end.

Inductive result (A : Type) : Type :=
| Ok (a : A)
| Raise (e : exn).
Arguments Ok {A} a.
Arguments Raise {A} e.

Definition nat_str (n : nat) : string := NilZero.string_of_uint (Nat.to_uint n).
Definition int_str (z : Z) : string := NilZero.string_of_int (Z.to_int z).

(** [str(x)] for an attribute annotated [Union[str, None]], as an
    f-string renders it. *)
Definition opt_str (o : option string) : string :=
  match o with Some s => s | None => "None" end.

(** [sep.join(items)] on the items of a list, [i] being the index of the
    first item: every item must be a [str]. *)
Fixpoint join_from (sep : string) (i : nat) (items : list value) : result string :=
  match items with
  | [] => Ok ""
  | PyStr s :: rest =>
      match rest with
      | [] => Ok s
      | _ :: _ =>
          match join_from sep (S i) rest with
          | Ok r => Ok (s ++ sep ++ r)
          | Raise e => Raise e
          end
      end
  | v :: _ =>
      Raise (TypeError ("sequence item " ++ nat_str i
                        ++ ": expected str instance, " ++ type_name v ++ " found"))
  end.

(** A [str] is held as its UTF-8 bytes.  A character starts at every byte
    that is not a continuation byte (10xxxxxx): [code_points] cuts the
    bytes into characters. *)
Definition is_continuation (c : ascii) : bool :=
  (128 <=? nat_of_ascii c)%nat && (nat_of_ascii c <? 192)%nat.

Fixpoint code_points (s : string) : list string :=
  match s with
  | EmptyString => []
  | String c rest =>
      match rest with
      | EmptyString => [String c EmptyString]
      | String d _ =>
          if is_continuation d
          then match code_points rest with
               | h :: t => String c h :: t
               | [] => [String c EmptyString]
               end
          else String c EmptyString :: code_points rest
      end
  end.

(** The characters of a [str], as iterating over it gives them. *)
Definition chars (s : string) : list value := map PyStr (code_points s).

(** [sep.join(v)] *)
Definition str_join (sep : string) (v : value) : result string :=
  match v with
  | PyList items => join_from sep 0 items
  | PyStr s => join_from sep 0 (chars s)
  | PyNone | PyInt _ => Raise (TypeError "can only join an iterable")
  end.

(** [len(v)] *)
Definition len (v : value) : result nat :=
  match v with
  | PyList items => Ok (List.length items)
  | PyStr s => Ok (List.length (code_points s))
  | PyNone | PyInt _ =>
      Raise (TypeError ("object of type '" ++ type_name v ++ "' has no len()"))
  end.

End Py.
Import Py.

(* ================================================================== *)
(** * The effects: logger records and outgoing GET requests *)
(* ================================================================== *)

Inductive level : Type := INFO | ERROR.

Record log_record : Type := mk_log
  { lvl : level;
    message : string;
    exc_info : option exn }.

Record World : Type := mk_world
  { log : list log_record;     (* records handed to [self.logger], oldest first *)
    gets : list string }.      (* URLs handed to [requests.get], oldest first *)

Definition M (A : Type) : Type := World -> result A * World.

Definition ret {A} (a : A) : M A := fun w => (Ok a, w).

Definition raise {A} (e : exn) : M A := fun w => (Raise e, w).

Definition bind {A B} (m : M A) (k : A -> M B) : M B :=
  fun w =>
    match m w with
    | (Ok a, w') => k a w'
    | (Raise e, w') => (Raise e, w')
    end.

Definition lift {A} (r : result A) : M A := fun w => (r, w).

(** [try: body  except Exception as e: handler(e)] *)
Definition try_except {A} (body : M A) (handler : exn -> M A) : M A :=
  fun w =>
    match body w with
    | (Ok a, w') => (Ok a, w')
    | (Raise e, w') => if is_Exception e then handler e w' else (Raise e, w')
    end.

Declare Scope py_scope.
Delimit Scope py_scope with py.
Notation "x <- m ;; k" := (bind m (fun x => k))
  (at level 100, m at next level, right associativity) : py_scope.
Notation "m ;;; k" := (bind m (fun _ => k))
  (at level 100, right associativity) : py_scope.
Open Scope py_scope.

Definition logger_info (m : string) : M unit :=
  fun w => (Ok tt, mk_world (log w ++ [mk_log INFO m None])%list (gets w)).

(** [self.logger.error(m, exc_info=True)] inside a handler attaches the
    exception being handled; [logger.error(m)] attaches none. *)
Definition logger_error (m : string) (e : option exn) : M unit :=
  fun w => (Ok tt, mk_world (log w ++ [mk_log ERROR m e])%list (gets w)).

(* ================================================================== *)
(** * [class IEXApi] *)
(* ================================================================== *)

Record Response : Type := mk_response
  { status_code : Z;
    text : string }.

Record IEXApi : Type := mk_api
  { token : option string;
    base_url : option string }.

(** The value the handler of [_create_request] returns. *)
Definition placeholder : string := "fuck off".

Definition batch_url (base : option string) (joined_symbols joined_data_set : string) : string :=
  opt_str base ++ "/stable/stock/market/batch?symbols=" ++ joined_symbols
           ++ "&types=" ++ joined_data_set ++ "&".

Definition sectors_url (base : option string) : string :=
  opt_str base ++ "/stable/ref-data/sectors?".

(** The [try] block of [_create_request].  [custom], [*args] and
    [**kwargs] are never read by the body and are left out. *)
Definition _create_request_try (self : IEXApi)
    (request_type symbols data_set : value) : M string :=
  if eq_str request_type "stat" || eq_str request_type "info" then
    if negb (isinstance_list symbols) || is_None symbols
       || negb (isinstance_list data_set) || is_None data_set
    then raise (TypeError "")
    else
      joined_data_set <- lift (str_join "," data_set) ;;
      joined_symbols <- lift (str_join "," symbols) ;;
      ret (batch_url (base_url self) joined_symbols joined_data_set)
  else if eq_str request_type "sector_list" then
    ret (sectors_url (base_url self))
  else raise NotImplementedError.

Definition _create_request (self : IEXApi)
    (request_type symbols data_set : value) : M string :=
  try_except
    (_create_request_try self request_type symbols data_set)
    (fun e =>
       logger_error ("Received Error " ++ exn_str e) (Some e) ;;;
       ret placeholder).

(** The world once the handler of [_create_request] has logged [e]. *)
Definition logged_error (w : World) (e : exn) : World :=
  mk_world (log w ++ [mk_log ERROR ("Received Error " ++ exn_str e)%string (Some e)])%list
           (gets w).

(** A configured client and an idle world, for the examples. *)
Definition sandbox : IEXApi :=
  mk_api (Some "Tpk_0123") (Some "https://sandbox.iexapis.com").

Definition idle : World := mk_world [] [].

Section Client.

(** What the HTTP stack does with a URL: a response, or an exception
    (a transport failure, a malformed URL). *)
Variable http : string -> result Response.

(** [requests.get(url)] *)
Definition requests_get (url : string) : M Response :=
  fun w => (http url, mk_world (log w) (gets w ++ [url])%list).

Definition _send_request (self : IEXApi) (request : string) : M Response :=
  let request := request ++ "token=" ++ opt_str (token self) in
  logger_info ("Sending Request - " ++ request) ;;;
  data <- requests_get request ;;
  logger_info ("Request Status Code - " ++ int_str (status_code data)) ;;;
  ret data.

(** The two statistics fetchers differ in the dataset list only. *)
Definition fetch_stats (data_set : list string) (self : IEXApi) (symbols : value)
  : M (option Response) :=
  n <- lift (len symbols) ;;
  if (100 <? n)%nat then
    logger_error ("len(symbols) = " ++ nat_str n ++ " > 100") None ;;;
    ret None
  else
    req <- _create_request self (PyStr "stat") symbols (PyList (map PyStr data_set)) ;;
    data <- _send_request self req ;;
    ret (Some data).

Definition get_stats : IEXApi -> value -> M (option Response) :=
  fetch_stats ["stats"; "price"].

Definition get_advanced_stats : IEXApi -> value -> M (option Response) :=
  fetch_stats ["advanced-stats"].

Definition get_symbol_info (self : IEXApi) (symbols : value) : M Response :=
  req <- _create_request self (PyStr "info") symbols (PyList [PyStr "company"]) ;;
  _send_request self req.

Definition get_sector_list (self : IEXApi) : M Response :=
  req <- _create_request self (PyStr "sector_list") PyNone PyNone ;;
  _send_request self req.

End Client.

(* ------------------------------------------------------------------ *)
(** ** [_chunk_symbols_list]: a generator *)
(* ------------------------------------------------------------------ *)

Section Chunker.

Context {A : Type}.

(** [l[i:j]] for [0 <= i <= j] *)
Definition slice (l : list A) (i j : nat) : list A := firstn (j - i) (skipn i l).

(** One resumption of the generator whose loop variable will next be
    [i]: the sub-list it yields and the following loop variable, or
    [None] when [range(0, len(symbols), n)] is exhausted. *)
Definition chunk_next (symbols : list A) (n i : nat) : option (list A * nat) :=
  if (i <? List.length symbols)%nat then Some (slice symbols i (i + n), i + n) else None.

(** Calling [next] until exhaustion, at most [fuel] times; [None] is
    running out of fuel. *)
Fixpoint drain (fuel : nat) (symbols : list A) (n i : nat) : option (list (list A)) :=
  match fuel with
  | O => None
  | S fuel' =>
      match chunk_next symbols n i with
      | None => Some []
      | Some (c, i') =>
          match drain fuel' symbols n i' with
          | Some cs => Some (c :: cs)
          | None => None
          end
      end
  end.

(** [list(self._chunk_symbols_list(symbols, n))].  [range] rejects a
    zero step and is empty for a negative one. *)
Definition _chunk_symbols_list (fuel : nat) (symbols : list A) (n : Z)
  : option (result (list (list A))) :=
  if (n =? 0)%Z then Some (Raise (ValueError "range() arg 3 must not be zero"))
  else if (n <? 0)%Z then Some (Ok [])
  else match drain fuel symbols (Z.to_nat n) 0 with
       | Some cs => Some (Ok cs)
       | None => None
       end.

End Chunker.

(** The lengths of the sub-lists [drain] collects, computed from the
    length of the list alone. *)
Fixpoint chunk_sizes (fuel len n i : nat) : list nat :=
  match fuel with
  | O => []
  | S fuel' =>
      if (i <? len)%nat then Nat.min n (len - i) :: chunk_sizes fuel' len n (i + n) else []
  end.

(** An HTTP stack that answers every URL with an empty 200 response. *)
Definition always_up (url : string) : result Response :=
  Ok (mk_response 200 "{}").

(* ================================================================== *)
(** * The fragment of pandas that [momentum_analysis] runs *)
(* ================================================================== *)

(** The [result] monad, for code that has no effect but may raise. *)
Definition rbind {A B} (r : result A) (k : A -> result B) : result B :=
  match r with
  | Ok a => k a
  | Raise e => Raise e
  end.

Notation "x <~ r ;; k" := (rbind r (fun x => k))
  (at level 100, r at next level, right associativity) : py_scope.

Definition dropna {V} (cells : list (option V)) : list V :=
  flat_map (fun c => match c with Some v => [v] | None => [] end) cells.

Definition Qnat (n : nat) : Q := inject_Z (Z.of_nat n).

(** ** [Series.rank(pct=True)]

    With the defaults [method='average'], [na_option='keep'] and
    [ascending=True], pandas sorts the non-missing values, walks the sorted
    array with positions 1, 2, ..., adds up the positions of each run of
    equal values ([sum_ranks]) while counting the run ([dups]), gives every
    member of the run [sum_ranks / dups], and with [pct=True] divides by the
    number of non-missing values.  A missing cell stays missing. *)
Section Rank.

Variable V : Type.
Variable leb : V -> V -> bool.

Definition eqv (x y : V) : bool := leb x y && leb y x.
Definition ltv (x y : V) : bool := leb x y && negb (leb y x).

Fixpoint insert_sorted (x : V) (l : list V) : list V :=
  match l with
  | [] => [x]
  | y :: l' => if leb x y then x :: y :: l' else y :: insert_sorted x l'
  end.

Fixpoint sort_values (l : list V) : list V :=
  match l with
  | [] => []
  | x :: l' => insert_sorted x (sort_values l')
  end.

(** The run of [v] in the sorted array whose first position is [pos]:
    ([sum_ranks], [dups]). *)
Fixpoint tie_group (v : V) (sorted : list V) (pos : nat) : nat * nat :=
  match sorted with
  | [] => (0, 0)
  | x :: rest =>
      let '(sum_ranks, dups) := tie_group v rest (S pos) in
      if eqv x v then (pos + sum_ranks, S dups) else (sum_ranks, dups)
  end.

Definition rank_average (v : V) (sorted : list V) : Q :=
  let '(sum_ranks, dups) := tie_group v sorted 1 in
  (Qnat sum_ranks / Qnat dups)%Q.

Definition rank_pct (cells : list (option V)) : list (option Q) :=
  let present := dropna cells in
  let sorted := sort_values present in
  let count := List.length present in
  map (fun c =>
         match c with
         | None => None
         | Some v => Some (Qred (rank_average v sorted / Qnat count))
         end) cells.

(** *** The same percentile, by counting

    In ascending order the values equal to [v] occupy the positions that
    follow the values smaller than [v]; tied values share the average of
    these positions. *)
Definition count_lt (v : V) (present : list V) : nat :=
  List.length (filter (fun x => ltv x v) present).

Definition count_eq (v : V) (present : list V) : nat :=
  List.length (filter (fun x => eqv x v) present).

Definition tied_positions (v : V) (present : list V) : list nat :=
  seq (1 + count_lt v present) (count_eq v present).

Definition average_position (positions : list nat) : Q :=
  (Qnat (list_sum positions) / Qnat (List.length positions))%Q.

Definition percentile (present : list V) (v : V) : Q :=
  Qred (average_position (tied_positions v present) / Qnat (List.length present)).

Definition percentile_column (cells : list (option V)) : list (option Q) :=
  map (option_map (percentile (dropna cells))) cells.

End Rank.

Arguments eqv {V} leb x y.
Arguments ltv {V} leb x y.
Arguments insert_sorted {V} leb x l.
Arguments sort_values {V} leb l.
Arguments tie_group {V} leb v sorted pos.
Arguments rank_average {V} leb v sorted.
Arguments rank_pct {V} leb cells.
Arguments count_lt {V} leb v present.
Arguments count_eq {V} leb v present.
Arguments tied_positions {V} leb v present.
Arguments percentile {V} leb present v.
Arguments percentile_column {V} leb cells.

(** The order a boolean comparison decides. *)
Definition le_of {V : Type} (leb : V -> V -> bool) (x y : V) : Prop := leb x y = true.

(** A percentile cell within the closed unit interval (a missing cell
    makes no statement). *)
Definition in_unit (c : option Q) : Prop :=
  match c with
  | Some q => (0 <= q <= 1)%Q
  | None => True
  end.

(** ** Frames *)

(** A column is either [object] (here: strings, as the [symbol] column) or
    [float64], where [None] is NaN. *)
Inductive column : Type :=
| ColObj (cells : list string)
| ColNum (cells : list (option Q)).

Record DataFrame : Type := mk_frame
  { nrows : nat;
    columns : list (string * column) }.

(** Column labels need not be distinct.  [df[name]] is the column of that
    label when there is one, and the frame of all columns of that label
    when there are several. *)
Inductive item : Type :=
| Column (col : column)
| SubFrame (cols : list column).

Definition labelled (df : DataFrame) (name : string) : list (string * column) :=
  filter (fun c => String.eqb (fst c) name) (columns df).

(** [df[name]] *)
Definition getitem (df : DataFrame) (name : string) : result item :=
  match labelled df name with
  | [] => Raise (KeyError name)
  | [c] => Ok (Column (snd c))
  | cs => Ok (SubFrame (map snd cs))
  end.

(** The text of the messages pandas composes is not fixed here: it is
    taken as given.  [not_in_index requested absent] is the message of the
    [KeyError] of a list selection, made from the labels asked for and
    those among them that the frame lacks; [cannot_set_frame key n] is the
    message of the [ValueError] raised when a frame of [n] columns, more
    than one, is assigned to the single column [key]. *)
Record Wording : Type := mk_wording
  { not_in_index : list string -> list string -> string;
    cannot_set_frame : string -> nat -> string }.

(** [Index.unique]: first occurrences, in order. *)
Fixpoint unique (names : list string) : list string :=
  match names with
  | [] => []
  | name :: names' => name :: filter (fun n => negb (String.eqb n name)) (unique names')
  end.

(** The labels of a list selection that the frame lacks. *)
Definition absent (df : DataFrame) (names : list string) : list string :=
  unique (filter (fun name => match labelled df name with [] => true | _ => false end)
                 names).

(** [df[[n1, n2, ...]]]: a new frame with, for each label in turn, every
    column of that label; one [KeyError] for all the labels that are
    absent. *)
Definition select (words : Wording) (df : DataFrame) (names : list string)
  : result DataFrame :=
  match absent df names with
  | [] => Ok (mk_frame (nrows df) (flat_map (labelled df) names))
  | missing => Raise (KeyError (not_in_index words names missing))
  end.

Definition has_label (cols : list (string * column)) (name : string) : bool :=
  existsb (fun c => String.eqb (fst c) name) cols.

(** [df[name] = col]: sets every column of that label, or appends one. *)
Definition setitem (df : DataFrame) (name : string) (col : column) : DataFrame :=
  mk_frame (nrows df)
           (if has_label (columns df) name
            then map (fun c => if String.eqb (fst c) name then (fst c, col) else c)
                     (columns df)
            else (columns df ++ [(name, col)])%list).

(** [df.iloc[:, i:j].columns] *)
Definition iloc_columns (df : DataFrame) (i j : nat) : list string :=
  map fst (firstn (j - i) (skipn i (columns df))).

(** [sub in s] *)
Definition contains (sub s : string) : bool :=
  match String.index 0 sub s with
  | Some _ => true
  | None => false
  end.

(** [Series.rank(pct=True)] on a column; strings are ordered as Python
    orders them, by code point. *)
Definition Series_rank_pct (col : column) : column :=
  match col with
  | ColNum cells => ColNum (rank_pct Qle_bool cells)
  | ColObj cells => ColNum (rank_pct String.leb (map Some cells))
  end.

(** ** [DataFrame.mean(axis=1)]

    [nanmean] with [skipna=True]: missing cells are filled with 0 for the
    sum, the sum is divided by the number of cells that are not missing, and
    a row with no such cell is missing. *)
Definition fillna0 (c : option Q) : Q :=
  match c with Some q => q | None => 0%Q end.

Definition notna {V} (c : option V) : bool :=
  match c with Some _ => true | None => false end.

Definition nanmean (cells : list (option Q)) : option Q :=
  let count := List.length (filter notna cells) in
  let the_sum := fold_left Qplus (map fillna0 cells) 0%Q in
  if (count =? 0)%nat then None else Some (Qred (the_sum / Qnat count)).

(** The arithmetic mean of the cells that are available, as the
    specification words it: a missing cell is left out of the sum and of
    the count, and no mean is defined when nothing is available. *)
Definition Qsum (values : list Q) : Q := fold_right Qplus 0%Q values.

Definition arithmetic_mean (values : list Q) : Q :=
  (Qsum values / Qnat (List.length values))%Q.

Definition mean_available (cells : list (option Q)) : option Q :=
  match dropna cells with
  | [] => None
  | available => Some (Qred (arithmetic_mean available))
  end.

Fixpoint numeric_columns (cols : list (string * column)) : result (list (list (option Q))) :=
  match cols with
  | [] => Ok []
  | (name, ColNum cells) :: cols' =>
      rest <~ numeric_columns cols' ;;
      Ok (cells :: rest)
  | (name, ColObj _) :: _ =>
      Raise (TypeError "unsupported operand type(s) for +: 'float' and 'str'")
  end.

Definition row_cells (cols : list (list (option Q))) (i : nat) : list (option Q) :=
  map (fun cells => nth i cells None) cols.

Definition mean_axis1 (df : DataFrame) : result (list (option Q)) :=
  cols <~ numeric_columns (columns df) ;;
  Ok (map (fun i => nanmean (row_cells cols i)) (seq 0 (nrows df))).

(* ================================================================== *)
(** * [class Analysis]: [momentum_analysis] *)
(* ================================================================== *)

Definition change_columns : list string :=
  ["month1ChangePercent"; "month3ChangePercent"; "month6ChangePercent";
   "year1ChangePercent"].

Fixpoint for_each {S X} (body : S -> X -> result S) (xs : list X) (s : S) : result S :=
  match xs with
  | [] => Ok s
  | x :: xs' => s' <~ body s x ;; for_each body xs' s'
  end.

(** The body of [for time in ...: mom_df[time+"_tile"] = mom_df[time].rank(pct=True)].
    When several columns carry the label [time], [mom_df[time]] is a frame
    and so is its rank, which cannot be assigned to one column. *)
Definition add_tile (words : Wording) (mom_df : DataFrame) (time : string)
  : result DataFrame :=
  it <~ getitem mom_df time ;;
  match it with
  | Column col => Ok (setitem mom_df (time ++ "_tile") (Series_rank_pct col))
  | SubFrame cols =>
      Raise (ValueError (cannot_set_frame words (time ++ "_tile") (List.length cols)))
  end.

Definition momentum_analysis (words : Wording) (stats_df : DataFrame) : result DataFrame :=
  mom_df <~ select words stats_df ("symbol" :: change_columns) ;;
  mom_df <~ for_each (add_tile words) (iloc_columns mom_df 1 5) mom_df ;;
  tiles <~ select words mom_df
             (filter (fun col => contains "_tile" col) (map fst (columns mom_df))) ;;
  avg <~ mean_axis1 tiles ;;
  Ok (setitem mom_df "avgPercentiles" (ColNum avg)).

(** A wording for the examples. *)
Definition plain_wording : Wording :=
  mk_wording (fun _ missing => String.concat ", " missing) (fun key _ => key).

(** Four symbols; the one-month changes are those of the specification's
    example, and the other periods have gaps. *)
Definition example_stats : DataFrame :=
  mk_frame 4
    [("peRatio", ColNum [Some (30 # 1); None; Some (12 # 1); None]%Q);
     ("symbol", ColObj ["AAPL"; "MSFT"; "NVDA"; "PLTR"]);
     ("month1ChangePercent", ColNum [Some (1 # 10); Some (1 # 20); Some (1 # 5); Some (1 # 20)]%Q);
     ("month3ChangePercent", ColNum [Some (1 # 10); None; Some (1 # 5); Some (1 # 20)]%Q);
     ("month6ChangePercent", ColNum [Some (1 # 10); None; Some (1 # 5); Some (2 # 40)]%Q);
     ("year1ChangePercent", ColNum [None; None; Some (1 # 5); Some (1 # 20)]%Q)].

(* ================================================================== *)
(** * [class Analysis]: flattening a batch response *)
(* ================================================================== *)

(** What [Response.json()] returns.  An object is a Python [dict]: its
    keys are distinct and keep their order. *)
Inductive json : Type :=
| JNull
| JBool (b : bool)
| JNum (q : Q)
| JStr (s : string)
| JArr (items : list json)
| JObj (fields : list (string * json)).

(** A batch response: symbol -> (dataset name -> value). *)
Definition batch : Type := list (string * list (string * json)).

(** Column labels are the keys of the objects, or positions. *)
Inductive label : Type :=
| LStr (s : string)
| LInt (n : nat).

Definition label_eqb (a b : label) : bool :=
  match a, b with
  | LStr s, LStr t => String.eqb s t
  | LInt n, LInt m => Nat.eqb n m
  | _, _ => false
  end.

(** A cell of an [object] frame: NaN where the frame was filled, else the
    Python object ([Val JNull] is [None]).  The dtype inference that pandas
    runs when it builds a series or a frame is not modelled: it may turn a
    [None] into NaN and an integer into a double.  Both [None] and NaN are
    missing ([isna]); the properties below speak of strings, of NaN from
    filling, and of exceptions, which the inference leaves alone. *)
Inductive cell : Type :=
| NaN
| Val (v : json).

(** [pd.isna] *)
Definition isna (c : cell) : bool :=
  match c with
  | NaN | Val JNull => true
  | Val _ => false
  end.

(** A [pd.Series]: labelled values. *)
Definition Series : Type := list (label * cell).

(** A frame of objects; every row is a [Series] over [labels]. *)
Record ObjFrame : Type := mk_oframe
  { labels : list label;
    rows : list Series }.

Definition mem_label (l : label) (ls : list label) : bool :=
  existsb (label_eqb l) ls.

Definition lookup (l : label) (s : Series) : option cell :=
  match find (fun e => label_eqb (fst e) l) s with
  | Some e => Some (snd e)
  | None => None
  end.

(** Union of indexes, in order of first appearance. *)
Definition union_labels (ss : list Series) : list label :=
  fold_left
    (fun acc l => if mem_label l acc then acc else (acc ++ [l])%list)
    (flat_map (map fst) ss) [].

(** [Series.reindex]: labels the series lacks are filled with NaN. *)
Definition reindex (ls : list label) (s : Series) : Series :=
  map (fun l => (l, match lookup l s with Some c => c | None => NaN end)) ls.

(** [DataFrame(list_of_series)]: one row per series, the columns being the
    union of their labels. *)
Definition frame_of_rows (ss : list Series) : ObjFrame :=
  let ls := union_labels ss in
  mk_oframe ls (map (reindex ls) ss).

(** [pd.DataFrame.from_dict(d).transpose()]: each symbol's object becomes
    a row. *)
Definition from_dict_transpose (d : batch) : ObjFrame :=
  frame_of_rows (map (fun e => map (fun kv => (LStr (fst kv), Val (snd kv))) (snd e)) d).

Fixpoint set_cell (s : Series) (l : label) (c : cell) : Series :=
  match s with
  | [] => [(l, c)]
  | (l', c') :: s' =>
      if label_eqb l' l then (l', c) :: s' else (l', c') :: set_cell s' l c
  end.

(** [df[l] = values] *)
Definition osetitem (df : ObjFrame) (l : label) (values : list cell) : ObjFrame :=
  mk_oframe
    (if mem_label l (labels df) then labels df else (labels df ++ [l])%list)
    (map (fun rc => set_cell (fst rc) l (snd rc)) (combine (rows df) values)).

(** [df[l]] *)
Definition ogetitem (df : ObjFrame) (l : string) : result (list cell) :=
  if mem_label (LStr l) (labels df)
  then Ok (map (fun r => match lookup (LStr l) r with Some c => c | None => NaN end) (rows df))
  else Raise (KeyError l).

Definition enumerate (items : list json) : Series :=
  map (fun ic => (LInt (fst ic), Val (snd ic))) (combine (seq 0 (List.length items)) items).

(** [pd.Series(x)] for the object [x] held by a cell: a dict gives its
    items, a list its elements by position, [None] the empty series, and
    any other scalar (NaN included) a series of length one at label 0. *)
Definition pd_Series (c : cell) : Series :=
  match c with
  | Val (JObj fields) => map (fun kv => (LStr (fst kv), Val (snd kv))) fields
  | Val (JArr items) => enumerate items
  | Val JNull => []
  | NaN | Val (JBool _) | Val (JNum _) | Val (JStr _) => [(LInt 0, c)]
  end.

(** [series.apply(pd.Series)]: a frame when there is a first result (it is
    a Series); an empty series maps to an empty, unnamed series, which
    [pd.merge] refuses. *)
Definition apply_pd_Series (cells : list cell) : result ObjFrame :=
  match cells with
  | [] => Raise (ValueError "Cannot merge a Series without a name")
  | _ :: _ => Ok (frame_of_rows (map pd_Series cells))
  end.

Definition suffixed (l : label) (sfx : string) : label :=
  match l with
  | LStr s => LStr (s ++ sfx)
  | LInt n => LStr (nat_str n ++ sfx)
  end.

Definition rename_overlap (other : list label) (sfx : string) (l : label) : label :=
  if mem_label l other then suffixed l sfx else l.

Definition rename_series (f : label -> label) (s : Series) : Series :=
  map (fun e => (f (fst e), snd e)) s.

(** [pd.merge(left, right, left_index=True, right_index=True)] of two
    frames that carry the same [RangeIndex]: rows are paired by position;
    a label present on both sides gets the suffixes [_x] and [_y]. *)
Definition merge_on_index (left right : ObjFrame) : ObjFrame :=
  let fl := rename_overlap (labels right) "_x" in
  let fr := rename_overlap (labels left) "_y" in
  mk_oframe
    (map fl (labels left) ++ map fr (labels right))%list
    (map (fun lr => (rename_series fl (fst lr) ++ rename_series fr (snd lr))%list)
         (combine (rows left) (rows right))).

(** [df.drop(l, axis=1)] *)
Definition drop_column (df : ObjFrame) (l : string) : result ObjFrame :=
  if mem_label (LStr l) (labels df)
  then Ok (mk_oframe
             (filter (fun l' => negb (label_eqb l' (LStr l))) (labels df))
             (map (filter (fun e => negb (label_eqb (fst e) (LStr l)))) (rows df)))
  else Raise (KeyError ("['" ++ l ++ "'] not found in axis")).

(** Lines 137 to 143 of [get_symbol_stats], and the same lines of
    [get_advanced_symbol_stats], on the object that [data.json()]
    returned; [nested] is ['stats'], respectively ['advanced-stats']. *)
Definition flatten_response (nested : string) (d : batch) : result ObjFrame :=
  let data_df := from_dict_transpose d in
  let data_df := osetitem data_df (LStr "symbol") (map (fun e => Val (JStr (fst e))) d) in
  (* reset_index(drop=True): rows are identified by position from here on *)
  nested_column <~ ogetitem data_df nested ;;
  expanded <~ apply_pd_Series nested_column ;;
  let data_df := merge_on_index data_df expanded in
  drop_column data_df nested.

Definition get_symbol_stats_frame : batch -> result ObjFrame :=
  flatten_response "stats".

Definition get_advanced_symbol_stats_frame : batch -> result ObjFrame :=
  flatten_response "advanced-stats".

(** [df.loc[i, l]] *)
Definition at_row (df : ObjFrame) (i : nat) (l : label) : option cell :=
  match nth_error (rows df) i with
  | Some r => lookup l r
  | None => None
  end.

(** The world after [_send_request] has logged [url], handed it to
    [requests.get], and, if that returned, logged the status code. *)
Definition after_send (http : string -> result Response) (w : World) (url : string) : World :=
  mk_world
    (log w
       ++ mk_log INFO ("Sending Request - " ++ url) None
       :: match http url with
          | Ok data =>
              [mk_log INFO ("Request Status Code - " ++ int_str (status_code data)) None]
          | Raise _ => []
          end)%list
    (gets w ++ [url])%list.

(** What a fetcher makes of the outcome of its request. *)
Definition fetched (r : result Response) : result (option Response) :=
  match r with
  | Ok data => Ok (Some data)
  | Raise e => Raise e
  end.

(** The query string followed by the token parameter. *)
Definition with_token (self : IEXApi) (request : string) : string :=
  request ++ "token=" ++ opt_str (token self).

(* ================================================================== *)
(** * [class Analysis]: the calls that fetch and flatten *)
(* ================================================================== *)

Section AnalysisClient.

Variable http : string -> result Response.

(** [Response.json()]: the parsed body, a symbol-keyed object of objects
    for a batch request, or the exception the decoder raises. *)
Variable json_of : Response -> result batch.

(** [data.json()] where [data] is what a fetcher returned: [None] has no
    such attribute. *)
Definition data_json (data : option Response) : result batch :=
  match data with
  | Some r => json_of r
  | None => Raise (AttributeError "'NoneType' object has no attribute 'json'")
  end.

(** [self.api_obj] is the client the [Analysis] object was built with. *)
Definition get_symbol_stats (api_obj : IEXApi) (symbols : value) : M ObjFrame :=
  data <- get_stats http api_obj symbols ;;
  d <- lift (data_json data) ;;
  lift (flatten_response "stats" d).

Definition get_advanced_symbol_stats (api_obj : IEXApi) (symbols : value) : M ObjFrame :=
  data <- get_advanced_stats http api_obj symbols ;;
  d <- lift (data_json data) ;;
  lift (flatten_response "advanced-stats" d).

End AnalysisClient.

(** The cells [Series.rank(pct=True)] computes, whatever the dtype. *)
Definition rank_cells (col : column) : list (option Q) :=
  match col with
  | ColNum cells => rank_pct Qle_bool cells
  | ColObj cells => rank_pct String.leb (map Some cells)
  end.

(** The columns of the frame [momentum_analysis] returns, in order. *)
Definition momentum_columns : list string :=
  ("symbol" :: change_columns)
    ++ map (fun time => time ++ "_tile") change_columns
    ++ ["avgPercentiles"].

(** [obj.get(k)]: the value an object holds under [k]. *)
Definition field (k : string) (obj : list (string * json)) : option json :=
  match find (fun kv => String.eqb (fst kv) k) obj with
  | Some kv => Some (snd kv)
  | None => None
  end.

(** ** The rows of a flattened response, written out

    The pieces [flatten_response] builds on the way, as functions of the
    response: the labels and rows of the frame before the merge (left), of
    the expanded nested objects (right), and the row that is left after the
    nested column is dropped. *)
Definition object_series (obj : list (string * json)) : Series :=
  map (fun kv => (LStr (fst kv), Val (snd kv))) obj.

Definition top_labels (d : batch) : list label :=
  union_labels (map (fun e => object_series (snd e)) d).

Definition left_labels (d : batch) : list label :=
  if mem_label (LStr "symbol") (top_labels d)
  then top_labels d
  else (top_labels d ++ [LStr "symbol"])%list.

Definition left_row (d : batch) (e : string * list (string * json)) : Series :=
  set_cell (reindex (top_labels d) (object_series (snd e)))
           (LStr "symbol") (Val (JStr (fst e))).

Definition nested_cell (nested : string) (e : string * list (string * json)) : cell :=
  match field nested (snd e) with
  | Some v => Val v
  | None => NaN
  end.

Definition right_labels (nested : string) (d : batch) : list label :=
  union_labels (map (fun e => pd_Series (nested_cell nested e)) d).

Definition right_row (nested : string) (d : batch) (e : string * list (string * json))
  : Series :=
  reindex (right_labels nested d) (pd_Series (nested_cell nested e)).

Definition flat_row (nested : string) (d : batch) (e : string * list (string * json))
  : Series :=
  filter (fun x => negb (label_eqb (fst x) (LStr nested)))
         (left_row d e ++ right_row nested d e)%list.

(* ================================================================== *)
(** * Properties of the request builder and the client *)
(* ================================================================== *)

Lemma str_append_assoc (a b c : string) : (a ++ b) ++ c = a ++ (b ++ c).
Proof. induction a as [|x a IH]; cbn; [reflexivity | now rewrite IH]. Qed.

Lemma join_from_strs (sep : string) (l : list string) (i : nat) :
  join_from sep i (map PyStr l) = Ok (String.concat sep l).
Proof.
  revert i. induction l as [|s l IH]; intro i; [reflexivity|].
  destruct l as [|t l]; [reflexivity|].
  change (map PyStr (s :: t :: l)) with (PyStr s :: map PyStr (t :: l)).
  cbn [join_from]. cbn [map] in *. rewrite (IH (S i)). reflexivity.
Qed.

Lemma str_join_strs (sep : string) (l : list string) :
  str_join sep (PyList (map PyStr l)) = Ok (String.concat sep l).
Proof. apply join_from_strs. Qed.

Lemma eq_str_lit (rt lit : string) : rt = lit -> eq_str (PyStr rt) lit = true.
Proof. intros ->. apply String.eqb_refl. Qed.

Lemma eq_str_neq (v : value) (lit : string) : v <> PyStr lit -> eq_str v lit = false.
Proof.
  destruct v; cbn; try reflexivity.
  intro H. apply String.eqb_neq. intro E. apply H. now rewrite E.
Qed.

Lemma batch_kind (rt : string) :
  rt = "stat" \/ rt = "info" ->
  eq_str (PyStr rt) "stat" || eq_str (PyStr rt) "info" = true.
Proof. intros [-> | ->]; reflexivity. Qed.

(** The builder on well-typed batch arguments: no error, nothing logged. *)
Lemma create_request_strs (self : IEXApi) (rt : string) (symbols data_set : list string)
      (w : World) :
  rt = "stat" \/ rt = "info" ->
  _create_request self (PyStr rt) (PyList (map PyStr symbols))
                  (PyList (map PyStr data_set)) w
  = (Ok (batch_url (base_url self) (String.concat "," symbols)
                   (String.concat "," data_set)), w).
Proof.
  intro Hrt. unfold _create_request, _create_request_try, try_except.
  rewrite (batch_kind rt Hrt). cbn [isinstance_list is_None negb orb].
  unfold bind, lift, ret. rewrite !str_join_strs. reflexivity.
Qed.

(** [join] raises nothing but a [TypeError]. *)
Lemma join_from_raises (sep : string) (items : list value) (i : nat) (e : exn) :
  join_from sep i items = Raise e -> is_Exception e = true.
Proof.
  revert i. induction items as [|x l IH]; intros i H; [discriminate|].
  cbn [join_from] in H.
  destruct x; try (inversion H; reflexivity).
  destruct l as [|y l]; [discriminate|].
  destruct (join_from sep (S i) (y :: l)) eqn:E; [discriminate|].
  inversion H; subst. exact (IH _ E).
Qed.

Lemma str_join_raises (sep : string) (v : value) (e : exn) :
  str_join sep v = Raise e -> is_Exception e = true.
Proof.
  destruct v; cbn [str_join]; intro H;
    try (inversion H; reflexivity); exact (join_from_raises _ _ _ _ H).
Qed.

(** Whatever the [try] block raises is an [Exception], and the block has
    no effect of its own. *)
Lemma create_request_try_raises (self : IEXApi) (rt symbols data_set : value)
      (w w' : World) (e : exn) :
  _create_request_try self rt symbols data_set w = (Raise e, w') ->
  is_Exception e = true /\ w' = w.
Proof.
  unfold _create_request_try, bind, lift, ret, raise.
  destruct (eq_str rt "stat" || eq_str rt "info").
  - destruct (negb (isinstance_list symbols) || is_None symbols
              || negb (isinstance_list data_set) || is_None data_set).
    + intro H; inversion H; subst; split; reflexivity.
    + destruct (str_join "," data_set) eqn:Ed.
      * destruct (str_join "," symbols) eqn:Es; intro H; inversion H; subst.
        split; [exact (str_join_raises _ _ _ Es) | reflexivity].
      * intro H; inversion H; subst.
        split; [exact (str_join_raises _ _ _ Ed) | reflexivity].
  - destruct (eq_str rt "sector_list"); intro H; inversion H; subst.
    split; reflexivity.
Qed.

Lemma create_request_try_pure (self : IEXApi) (rt symbols data_set : value) (w : World) :
  snd (_create_request_try self rt symbols data_set w) = w.
Proof.
  unfold _create_request_try, bind, lift, ret, raise.
  destruct (eq_str rt "stat" || eq_str rt "info").
  - destruct (negb (isinstance_list symbols) || is_None symbols
              || negb (isinstance_list data_set) || is_None data_set); [reflexivity|].
    destruct (str_join "," data_set); [|reflexivity].
    destruct (str_join "," symbols); reflexivity.
  - destruct (eq_str rt "sector_list"); reflexivity.
Qed.

Lemma create_request_caught (self : IEXApi) (rt symbols data_set : value)
      (w : World) (e : exn) :
  fst (_create_request_try self rt symbols data_set w) = Raise e ->
  _create_request self rt symbols data_set w = (Ok placeholder, logged_error w e).
Proof.
  intro H. unfold _create_request, try_except.
  destruct (_create_request_try self rt symbols data_set w) as [r w'] eqn:E.
  cbn in H. subst r.
  destruct (create_request_try_raises _ _ _ _ _ _ _ E) as [He ->].
  rewrite He. reflexivity.
Qed.

Lemma create_request_returned (self : IEXApi) (rt symbols data_set : value)
      (w : World) (s : string) :
  fst (_create_request_try self rt symbols data_set w) = Ok s ->
  _create_request self rt symbols data_set w = (Ok s, w).
Proof.
  intro H. unfold _create_request, try_except.
  pose proof (create_request_try_pure self rt symbols data_set w) as Hw.
  destruct (_create_request_try self rt symbols data_set w) as [r w'].
  cbn in H, Hw. now subst.
Qed.

(** [_create_request] always returns a string. *)
Lemma create_request_returns (self : IEXApi) (rt symbols data_set : value) (w : World) :
  exists s w', _create_request self rt symbols data_set w = (Ok s, w').
Proof.
  destruct (fst (_create_request_try self rt symbols data_set w)) as [s|e] eqn:E.
  - exists s, w. now apply create_request_returned.
  - exists placeholder, (logged_error w e). now apply create_request_caught.
Qed.

(** C3.  For request kind [stat] or [info] and non-empty lists of strings
    [symbols] and [data_set], [_create_request] returns exactly
    [<base_url>/stable/stock/market/batch?symbols=<symbols joined by
    commas>&types=<data_set joined by commas>&], and logs nothing. *)
Theorem create_request_batch_url :
  forall (self : IEXApi) (rt : string) (symbols data_set : list string) (w : World),
    rt = "stat" \/ rt = "info" ->
    symbols <> [] ->
    data_set <> [] ->
    _create_request self (PyStr rt) (PyList (map PyStr symbols))
                    (PyList (map PyStr data_set)) w
    = (Ok (opt_str (base_url self) ++ "/stable/stock/market/batch?symbols="
             ++ String.concat "," symbols ++ "&types="
             ++ String.concat "," data_set ++ "&"), w).
Proof.
  intros self rt symbols data_set w Hrt _ _.
  now apply create_request_strs.
Qed.

(** The instance of the specification: [stat], [AAPL, MSFT] and
    [stats, price]. *)
Lemma create_request_batch_url_witness :
  _create_request sandbox (PyStr "stat") (PyList [PyStr "AAPL"; PyStr "MSFT"])
                  (PyList [PyStr "stats"; PyStr "price"]) idle
  = (Ok "https://sandbox.iexapis.com/stable/stock/market/batch?symbols=AAPL,MSFT&types=stats,price&",
     idle).
Proof.
  apply (create_request_batch_url sandbox "stat" ["AAPL"; "MSFT"] ["stats"; "price"] idle).
  - left; reflexivity.
  - discriminate.
  - discriminate.
Defined.

(** C4, as stated, fails: with an empty [symbols] list the builder returns
    a batch URL (its [symbols=] value is empty), not the placeholder, and
    no error is logged. *)
Lemma create_request_empty_symbols_accepted :
  _create_request sandbox (PyStr "stat") (PyList [])
                  (PyList [PyStr "stats"; PyStr "price"]) idle
  = (Ok "https://sandbox.iexapis.com/stable/stock/market/batch?symbols=&types=stats,price&",
     idle)
  /\ fst (_create_request sandbox (PyStr "stat") (PyList [])
                          (PyList [PyStr "stats"; PyStr "price"]) idle)
     <> Ok placeholder.
Proof. split; [reflexivity | discriminate]. Qed.

(** C4, amended.  For request kind [stat] or [info], an argument that is
    not a list (such as [None], the default) makes the builder raise a
    [TypeError], which is logged and surfaced as the placeholder; an empty
    list is accepted and yields the batch URL with an empty [symbols=]
    (respectively [types=]) value. *)
Theorem create_request_list_guard :
  forall (self : IEXApi) (rt : string) (w : World),
    rt = "stat" \/ rt = "info" ->
    (forall symbols data_set : value,
        isinstance_list symbols = false \/ isinstance_list data_set = false ->
        _create_request self (PyStr rt) symbols data_set w
        = (Ok placeholder, logged_error w (TypeError "")))
    /\ (forall data_set : list string,
           _create_request self (PyStr rt) (PyList []) (PyList (map PyStr data_set)) w
           = (Ok (batch_url (base_url self) "" (String.concat "," data_set)), w))
    /\ (forall symbols : list string,
           _create_request self (PyStr rt) (PyList (map PyStr symbols)) (PyList []) w
           = (Ok (batch_url (base_url self) (String.concat "," symbols) ""), w)).
Proof.
  intros self rt w Hrt. repeat split.
  - intros symbols data_set Hnot.
    apply create_request_caught.
    unfold _create_request_try. rewrite (batch_kind rt Hrt).
    assert (G : negb (isinstance_list symbols) || is_None symbols
                || negb (isinstance_list data_set) || is_None data_set = true).
    { destruct Hnot as [H | H]; rewrite H; cbn.
      - reflexivity.
      - now rewrite !orb_true_r. }
    rewrite G. reflexivity.
  - intro data_set.
    exact (create_request_strs self rt [] data_set w Hrt).
  - intro symbols.
    exact (create_request_strs self rt symbols [] w Hrt).
Qed.

Lemma create_request_list_guard_witness :
  _create_request sandbox (PyStr "stat") PyNone PyNone idle
  = (Ok placeholder, logged_error idle (TypeError ""))
  /\ _create_request sandbox (PyStr "stat") (PyList []) (PyList [PyStr "stats"]) idle
     = (Ok "https://sandbox.iexapis.com/stable/stock/market/batch?symbols=&types=stats&", idle).
Proof.
  destruct (create_request_list_guard sandbox "stat" idle (or_introl eq_refl))
    as [Hguard [Hsym _]].
  split.
  - apply Hguard. left; reflexivity.
  - exact (Hsym ["stats"]).
Defined.

(** C8.  [_create_request] returns a string on every input: an exception
    raised inside it, whatever the input, is logged and converted into the
    placeholder.  A [request_type] other than [stat], [info] and
    [sector_list] raises [NotImplementedError] and so yields the
    placeholder; [sector_list] yields [<base_url>/stable/ref-data/sectors?]
    whatever [symbols] and [data_set] are. *)
Theorem create_request_never_raises :
  forall (self : IEXApi) (rt symbols data_set : value) (w : World),
    (exists s w', _create_request self rt symbols data_set w = (Ok s, w'))
    /\ (forall e, fst (_create_request_try self rt symbols data_set w) = Raise e ->
                  _create_request self rt symbols data_set w
                  = (Ok placeholder, logged_error w e))
    /\ (rt <> PyStr "stat" -> rt <> PyStr "info" -> rt <> PyStr "sector_list" ->
        _create_request_try self rt symbols data_set w = (Raise NotImplementedError, w)
        /\ _create_request self rt symbols data_set w
           = (Ok placeholder, logged_error w NotImplementedError))
    /\ (rt = PyStr "sector_list" ->
        _create_request self rt symbols data_set w
        = (Ok (opt_str (base_url self) ++ "/stable/ref-data/sectors?"), w)).
Proof.
  intros self rt symbols data_set w. split; [|split; [|split]].
  - apply create_request_returns.
  - intros e He. now apply create_request_caught.
  - intros Hstat Hinfo Hsectors.
    assert (Hother : _create_request_try self rt symbols data_set w
                     = (Raise NotImplementedError, w)).
    { unfold _create_request_try.
      rewrite (eq_str_neq _ _ Hstat), (eq_str_neq _ _ Hinfo), (eq_str_neq _ _ Hsectors).
      reflexivity. }
    split; [exact Hother|].
    apply create_request_caught. now rewrite Hother.
  - intros ->. reflexivity.
Qed.

Lemma create_request_never_raises_witness :
  _create_request sandbox (PyStr "quote") (PyList [PyStr "AAPL"]) PyNone idle
  = (Ok placeholder, logged_error idle NotImplementedError)
  /\ _create_request sandbox (PyStr "sector_list") (PyInt 7) (PyList [PyNone]) idle
     = (Ok "https://sandbox.iexapis.com/stable/ref-data/sectors?", idle)
  /\ _create_request sandbox (PyStr "info") (PyList [PyStr "AAPL"; PyInt 3])
                     (PyList [PyStr "company"]) idle
     = (Ok placeholder,
        logged_error idle
          (TypeError "sequence item 1: expected str instance, int found")).
Proof.
  split; [|split].
  - apply (create_request_never_raises sandbox (PyStr "quote") (PyList [PyStr "AAPL"])
                                       PyNone idle); discriminate.
  - apply (create_request_never_raises sandbox (PyStr "sector_list") (PyInt 7)
                                       (PyList [PyNone]) idle); reflexivity.
  - apply (create_request_never_raises sandbox (PyStr "info")
                                       (PyList [PyStr "AAPL"; PyInt 3])
                                       (PyList [PyStr "company"]) idle); reflexivity.
Defined.

(** C9.  Two clients that differ in their token only build the same
    string, and log the same records, on every input: the built query
    string is a function of [base_url] and the arguments alone. *)
Theorem create_request_ignores_token :
  forall (a b : IEXApi) (rt symbols data_set : value) (w : World),
    base_url a = base_url b ->
    _create_request a rt symbols data_set w = _create_request b rt symbols data_set w.
Proof.
  intros a b rt symbols data_set w Hbase.
  unfold _create_request, _create_request_try. now rewrite Hbase.
Qed.

Lemma create_request_ignores_token_witness :
  _create_request (mk_api (Some "sk_live_1") (Some "https://cloud.iexapis.com"))
                  (PyStr "stat") (PyList [PyStr "NVDA"]) (PyList [PyStr "stats"]) idle
  = _create_request (mk_api None (Some "https://cloud.iexapis.com"))
                    (PyStr "stat") (PyList [PyStr "NVDA"]) (PyList [PyStr "stats"]) idle.
Proof.
  apply (create_request_ignores_token
           (mk_api (Some "sk_live_1") (Some "https://cloud.iexapis.com"))
           (mk_api None (Some "https://cloud.iexapis.com"))).
  reflexivity.
Defined.

Section ClientFacts.

Variable http : string -> result Response.

(** What [_send_request] does to the world: two records around one GET
    when the GET returns, one record and one GET when it raises. *)
Lemma send_request_run (self : IEXApi) (request : string) (w : World) :
  let url := request ++ "token=" ++ opt_str (token self) in
  let sending := mk_log INFO ("Sending Request - " ++ url) None in
  _send_request http self request w
  = match http url with
    | Ok data =>
        (Ok data,
         mk_world
           ((log w ++ [sending])
              ++ [mk_log INFO ("Request Status Code - " ++ int_str (status_code data))%string
                         None])%list
           (gets w ++ [url])%list)
    | Raise e => (Raise e, mk_world (log w ++ [sending])%list (gets w ++ [url])%list)
    end.
Proof.
  cbv zeta. unfold _send_request, bind, logger_info, requests_get, ret. cbn.
  destruct (http _); reflexivity.
Qed.

Lemma send_request_gets (self : IEXApi) (request : string) (w : World) :
  gets (snd (_send_request http self request w))
  = (gets w ++ [(request ++ "token=" ++ opt_str (token self))%string])%list.
Proof.
  rewrite send_request_run. cbv zeta. destruct (http _); reflexivity.
Qed.

Lemma send_request_result (self : IEXApi) (request : string) (w : World) :
  fst (_send_request http self request w)
  = http (request ++ "token=" ++ opt_str (token self)).
Proof.
  rewrite send_request_run. cbv zeta. destruct (http _); reflexivity.
Qed.

(** Over the limit: an error record, no request, [None]. *)
Lemma fetch_stats_over (data_set : list string) (self : IEXApi)
      (symbols : list value) (w : World) :
  100 < List.length symbols ->
  fetch_stats http data_set self (PyList symbols) w
  = (Ok None,
     mk_world
       (log w ++ [mk_log ERROR ("len(symbols) = " ++ nat_str (List.length symbols)
                                  ++ " > 100")%string None])%list
       (gets w)).
Proof.
  intro H. unfold fetch_stats, bind, lift, len.
  apply Nat.ltb_lt in H. rewrite H. reflexivity.
Qed.

(** Within the limit: the builder runs, then exactly one GET. *)
Lemma fetch_stats_within (data_set : list string) (self : IEXApi)
      (symbols : list value) (w : World) :
  List.length symbols <= 100 ->
  exists req w1,
    _create_request self (PyStr "stat") (PyList symbols) (PyList (map PyStr data_set)) w
    = (Ok req, w1)
    /\ gets w1 = gets w
    /\ gets (snd (fetch_stats http data_set self (PyList symbols) w))
       = (gets w ++ [(req ++ "token=" ++ opt_str (token self))%string])%list
    /\ fst (fetch_stats http data_set self (PyList symbols) w)
       = match http (req ++ "token=" ++ opt_str (token self)) with
         | Ok data => Ok (Some data)
         | Raise e => Raise e
         end.
Proof.
  intro H.
  destruct (create_request_returns self (PyStr "stat") (PyList symbols)
                                   (PyList (map PyStr data_set)) w) as [req [w1 E]].
  exists req, w1. split; [exact E|].
  assert (G : gets w1 = gets w).
  { destruct (fst (_create_request_try self (PyStr "stat") (PyList symbols)
                                       (PyList (map PyStr data_set)) w)) as [s|e] eqn:Et.
    - rewrite (create_request_returned _ _ _ _ _ _ Et) in E. now inversion E.
    - rewrite (create_request_caught _ _ _ _ _ _ Et) in E. now inversion E. }
  split; [exact G|].
  unfold fetch_stats, bind, lift, len.
  apply Nat.ltb_ge in H. rewrite H, E.
  pose proof (send_request_gets self req w1) as Hg.
  pose proof (send_request_result self req w1) as Hr.
  destruct (_send_request http self req w1) as [[data|e] w2]; cbn in Hg, Hr |- *;
    rewrite <- Hr, Hg, G; split; reflexivity.
Qed.

Lemma fetch_stats_None_iff (data_set : list string) (self : IEXApi)
      (symbols : list value) (w : World) :
  fst (fetch_stats http data_set self (PyList symbols) w) = Ok None
  <-> 100 < List.length symbols.
Proof.
  split.
  - intro H. destruct (Nat.lt_ge_cases 100 (List.length symbols)) as [G | G]; [exact G|].
    destruct (fetch_stats_within data_set self symbols w G) as [req [w1 [_ [_ [_ Hr]]]]].
    rewrite Hr in H. destruct (http _); discriminate.
  - intro H. now rewrite fetch_stats_over.
Qed.

Lemma fetch_stats_url (data_set : list string) (self : IEXApi)
      (symbols : list string) (w : World) :
  List.length symbols <= 100 ->
  gets (snd (fetch_stats http data_set self (PyList (map PyStr symbols)) w))
  = (gets w ++ [(batch_url (base_url self) (String.concat "," symbols)
                           (String.concat "," data_set)
                   ++ "token=" ++ opt_str (token self))%string])%list.
Proof.
  intro H.
  destruct (fetch_stats_within data_set self (map PyStr symbols) w) as [req [w1 [E [_ [Hg _]]]]].
  - now rewrite length_map.
  - rewrite create_request_strs in E by (left; reflexivity).
    inversion E; subst. exact Hg.
Qed.

End ClientFacts.

(** C10.  Whatever the query string and the token, a missing token
    included, [_send_request] hands exactly one URL to [requests.get]: the
    query string followed by [token=] and the string form of the token.
    What it returns or raises is what that GET returns or raises.  With no
    token the URL ends in [token=None]; nothing validates the token. *)
Theorem send_request_one_get :
  forall (http : string -> result Response) (self : IEXApi) (request : string) (w : World),
    gets (snd (_send_request http self request w))
    = (gets w ++ [(request ++ "token=" ++ opt_str (token self))%string])%list
    /\ fst (_send_request http self request w)
       = http (request ++ "token=" ++ opt_str (token self))
    /\ gets (snd (_send_request http (mk_api None (base_url self)) request w))
       = (gets w ++ [(request ++ "token=None")%string])%list.
Proof.
  intros http self request w. split; [|split].
  - apply send_request_gets.
  - apply send_request_result.
  - apply (send_request_gets http (mk_api None (base_url self))).
Qed.

(** C6.  For a list [symbols], [get_stats] and [get_advanced_stats] return
    [None] exactly when the list has more than 100 items; then one error
    record is logged, nothing is raised and no GET is issued.  With at most
    100 items exactly one GET is issued; for a list of strings its URL is
    the batch URL of kind [stat], with datasets [stats,price] for
    [get_stats] and [advanced-stats] for [get_advanced_stats], followed by
    the token. *)
Theorem stats_fetchers_limit :
  forall (http : string -> result Response) (self : IEXApi) (w : World),
    (forall symbols : list value,
        (fst (get_stats http self (PyList symbols) w) = Ok None
         <-> 100 < List.length symbols)
        /\ (fst (get_advanced_stats http self (PyList symbols) w) = Ok None
            <-> 100 < List.length symbols))
    /\ (forall symbols : list value,
           100 < List.length symbols ->
           let over :=
             (Ok None : result (option Response),
              mk_world
                (log w ++ [mk_log ERROR ("len(symbols) = "
                                           ++ nat_str (List.length symbols) ++ " > 100")%string None])%list
                (gets w)) in
           get_stats http self (PyList symbols) w = over
           /\ get_advanced_stats http self (PyList symbols) w = over)
    /\ (forall symbols : list value,
           List.length symbols <= 100 ->
           (exists url, gets (snd (get_stats http self (PyList symbols) w))
                        = (gets w ++ [url])%list)
           /\ (exists url, gets (snd (get_advanced_stats http self (PyList symbols) w))
                           = (gets w ++ [url])%list))
    /\ (forall symbols : list string,
           List.length symbols <= 100 ->
           gets (snd (get_stats http self (PyList (map PyStr symbols)) w))
           = (gets w ++ [(opt_str (base_url self) ++ "/stable/stock/market/batch?symbols="
                            ++ String.concat "," symbols ++ "&types=stats,price&"
                            ++ "token=" ++ opt_str (token self))%string])%list
           /\ gets (snd (get_advanced_stats http self (PyList (map PyStr symbols)) w))
              = (gets w ++ [(opt_str (base_url self) ++ "/stable/stock/market/batch?symbols="
                               ++ String.concat "," symbols ++ "&types=advanced-stats&"
                               ++ "token=" ++ opt_str (token self))%string])%list).
Proof.
  intros http self w. split; [|split; [|split]].
  - intro symbols. split; apply fetch_stats_None_iff.
  - intros symbols H. cbv zeta. split; now apply fetch_stats_over.
  - intros symbols H. split.
    + destruct (fetch_stats_within http ["stats"; "price"] self symbols w H)
        as [req [w1 [_ [_ [Hg _]]]]].
      eexists. exact Hg.
    + destruct (fetch_stats_within http ["advanced-stats"] self symbols w H)
        as [req [w1 [_ [_ [Hg _]]]]].
      eexists. exact Hg.
  - intros symbols H. split.
    + unfold get_stats. rewrite (fetch_stats_url http _ self symbols w H).
      unfold batch_url. cbn [String.concat]. rewrite !str_append_assoc. reflexivity.
    + unfold get_advanced_stats. rewrite (fetch_stats_url http _ self symbols w H).
      unfold batch_url. cbn [String.concat]. rewrite !str_append_assoc. reflexivity.
Qed.

Lemma stats_fetchers_limit_witness :
  get_stats always_up sandbox (PyList (repeat (PyStr "F") 101)) idle
  = (Ok None, mk_world [mk_log ERROR "len(symbols) = 101 > 100" None] [])
  /\ gets (snd (get_stats always_up sandbox (PyList (map PyStr ["AAPL"; "MSFT"])) idle))
     = ["https://sandbox.iexapis.com/stable/stock/market/batch?symbols=AAPL,MSFT&types=stats,price&token=Tpk_0123"].
Proof.
  destruct (stats_fetchers_limit always_up sandbox idle) as [_ [Hover [_ Hurl]]].
  split.
  - refine (proj1 (Hover (repeat (PyStr "F") 101) _)). cbn. lia.
  - refine (proj1 (Hurl ["AAPL"; "MSFT"] _)). cbn. lia.
Defined.

(* ================================================================== *)
(** * Properties of the chunker *)
(* ================================================================== *)

Section ChunkerFacts.

Context {A : Type}.
Implicit Types (l : list A) (cs : list (list A)).

Lemma slice_length l (i n : nat) :
  List.length (slice l i (i + n)) = Nat.min n (List.length l - i).
Proof.
  unfold slice. replace (i + n - i) with n by lia.
  now rewrite length_firstn, length_skipn.
Qed.

Lemma slice_then_rest l (i n : nat) :
  (slice l i (i + n) ++ skipn (i + n) l)%list = skipn i l.
Proof.
  unfold slice. replace (i + n - i) with n by lia.
  rewrite (Nat.add_comm i n), <- skipn_skipn. apply firstn_skipn.
Qed.

(** With a positive step the generator is exhausted after at most
    [length l - i] resumptions, and what it yields from [i] on is the
    rest of the list, cut into pieces of at most [n] items. *)
Lemma drain_exhausts (n : nat) l :
  1 <= n ->
  forall (fuel i : nat),
    List.length l - i < fuel ->
    exists cs,
      drain fuel l n i = Some cs
      /\ concat cs = skipn i l
      /\ Forall (fun c => List.length c <= n) cs
      /\ map (@List.length A) cs = chunk_sizes fuel (List.length l) n i.
Proof.
  intros Hn fuel. induction fuel as [|fuel IH]; intros i Hfuel; [lia|].
  cbn [drain chunk_sizes]. unfold chunk_next.
  destruct (i <? List.length l)%nat eqn:Hi.
  - apply Nat.ltb_lt in Hi.
    destruct (IH (i + n)) as [cs [Hd [Hc [Hf Hs]]]]; [lia|].
    exists (slice l i (i + n) :: cs). rewrite Hd. repeat split.
    + cbn [concat]. rewrite Hc. apply slice_then_rest.
    + constructor; [|exact Hf]. rewrite slice_length. lia.
    + cbn [map]. now rewrite slice_length, Hs.
  - exists []. apply Nat.ltb_ge in Hi. repeat split.
    + cbn. symmetry. now apply skipn_all2.
    + constructor.
Qed.

End ChunkerFacts.

(** C7.  For a chunk size [n >= 1] the generator is exhausted after
    finitely many resumptions (at most [length symbols + 1]); the sub-lists
    it yields have at most [n] items each and their concatenation, in the
    order yielded, is the input list.  A list of 250 items and [n = 100]
    give three sub-lists, of 100, 100 and 50 items. *)
Theorem chunk_symbols_list_partition :
  forall (A : Type) (symbols : list A) (n : Z),
    (1 <= n)%Z ->
    exists chunks : list (list A),
      _chunk_symbols_list (S (List.length symbols)) symbols n = Some (Ok chunks)
      /\ concat chunks = symbols
      /\ Forall (fun c => (Z.of_nat (List.length c) <= n)%Z) chunks
      /\ (List.length symbols = 250 -> n = 100%Z ->
          map (@List.length A) chunks = [100; 100; 50]).
Proof.
  intros A symbols n Hn.
  assert (Hstep : 1 <= Z.to_nat n) by lia.
  destruct (drain_exhausts (Z.to_nat n) symbols Hstep (S (List.length symbols)) 0)
    as [cs [Hd [Hc [Hf Hs]]]]; [lia|].
  exists cs. unfold _chunk_symbols_list.
  destruct (n =? 0)%Z eqn:E0; [lia|]. destruct (n <? 0)%Z eqn:E1; [lia|].
  rewrite Hd. repeat split.
  - exact Hc.
  - eapply Forall_impl; [|exact Hf]. cbn. intros c Hc'. lia.
  - intros Hlen ->. rewrite Hs, Hlen. reflexivity.
Qed.

Lemma chunk_symbols_list_partition_witness :
  exists chunks : list (list nat),
    _chunk_symbols_list 8 [0; 1; 2; 3; 4; 5; 6] 3 = Some (Ok chunks)
    /\ concat chunks = [0; 1; 2; 3; 4; 5; 6]
    /\ Forall (fun c => (Z.of_nat (List.length c) <= 3)%Z) chunks.
Proof.
  assert (Hn : (1 <= 3)%Z) by lia.
  destruct (chunk_symbols_list_partition nat [0; 1; 2; 3; 4; 5; 6] 3 Hn)
    as [chunks [Hrun [Hcat [Hlen _]]]].
  exists chunks. repeat split; assumption.
Defined.

(* ================================================================== *)
(** * Properties of the ranking *)
(* ================================================================== *)

Section RankFacts.

Variable V : Type.
Variable leb : V -> V -> bool.
Hypothesis leb_total : forall x y, leb x y = true \/ leb y x = true.
Hypothesis leb_trans : forall x y z, leb x y = true -> leb y z = true -> leb x z = true.

Lemma leb_refl (x : V) : leb x x = true.
Proof. now destruct (leb_total x x). Qed.

Lemma insert_sorted_perm (x : V) (l : list V) :
  Permutation (insert_sorted leb x l) (x :: l).
Proof.
  induction l as [|y l IH]; cbn; [reflexivity|].
  destruct (leb x y); [reflexivity|].
  rewrite IH. apply perm_swap.
Qed.

Lemma sort_values_perm (l : list V) : Permutation (sort_values leb l) l.
Proof.
  induction l as [|x l IH]; cbn; [reflexivity|].
  rewrite insert_sorted_perm. now constructor.
Qed.

Lemma insert_sorted_ascending (x : V) (l : list V) :
  StronglySorted (le_of leb) l -> StronglySorted (le_of leb) (insert_sorted leb x l).
Proof.
  induction 1 as [|y l Hs IH Hy]; cbn.
  - repeat constructor.
  - destruct (leb x y) eqn:E.
    + constructor; [now constructor|].
      constructor; [exact E|].
      eapply Forall_impl; [|exact Hy]. intros z Hz. exact (leb_trans _ _ _ E Hz).
    + constructor; [exact IH|].
      apply (Permutation_Forall (Permutation_sym (insert_sorted_perm x l))).
      constructor; [|exact Hy].
      destruct (leb_total x y) as [H | H]; [congruence | exact H].
Qed.

Lemma sort_values_ascending (l : list V) : StronglySorted (le_of leb) (sort_values leb l).
Proof.
  induction l as [|x l IH]; cbn; [constructor | now apply insert_sorted_ascending].
Qed.

Lemma filter_length_perm (f : V -> bool) (l l' : list V) :
  Permutation l l' -> List.length (filter f l) = List.length (filter f l').
Proof.
  induction 1 as [| x l l' _ IH | x y l | l l' l'' _ IH1 _ IH2]; cbn.
  - reflexivity.
  - destruct (f x); cbn; now rewrite IH.
  - destruct (f x), (f y); reflexivity.
  - now rewrite IH1.
Qed.

Lemma filter_none (f : V -> bool) (l : list V) :
  Forall (fun y => f y = false) l -> List.length (filter f l) = 0.
Proof.
  induction 1 as [|y l Hy _ IH]; cbn; [reflexivity | now rewrite Hy].
Qed.

(** On an ascending array the run of [v] starts right after the values
    below [v]: the loop adds up consecutive positions. *)
Lemma tie_group_ascending (v : V) (sorted : list V) :
  StronglySorted (le_of leb) sorted ->
  forall pos,
    tie_group leb v sorted pos
    = (list_sum (seq (pos + count_lt leb v sorted) (count_eq leb v sorted)),
       count_eq leb v sorted).
Proof.
  unfold count_lt, count_eq.
  induction 1 as [|x rest Hs IH Hx]; intro pos; [reflexivity|].
  cbn [tie_group filter]. rewrite (IH (S pos)). unfold eqv, ltv.
  destruct (leb x v) eqn:Exv; destruct (leb v x) eqn:Evx; cbn [andb negb List.length].
  - (* x ties with v: nothing after x is below v *)
    rewrite (filter_none (fun y => leb y v && negb (leb v y)) rest).
    + rewrite !Nat.add_0_r. reflexivity.
    + eapply Forall_impl; [|exact Hx]. intros y Hy. cbn beta.
      rewrite (leb_trans _ _ _ Evx Hy). cbn. apply andb_false_r.
  - (* x is below v *)
    now rewrite Nat.add_succ_r.
  - (* x is above v: so is everything after x *)
    assert (G : Forall (fun y => leb y v = false) rest).
    { eapply Forall_impl; [|exact Hx]. intros y Hy. cbn beta.
      destruct (leb y v) eqn:Eyv; [|reflexivity].
      rewrite (leb_trans _ _ _ Hy Eyv) in Exv. discriminate. }
    rewrite (filter_none (fun y => leb y v && leb v y) rest),
            (filter_none (fun y => leb y v && negb (leb v y)) rest); [reflexivity| |].
    + eapply Forall_impl; [|exact G]. intros y Hy. cbn beta. now rewrite Hy.
    + eapply Forall_impl; [|exact G]. intros y Hy. cbn beta. now rewrite Hy.
  - destruct (leb_total x v); congruence.
Qed.

Lemma rank_average_counts (v : V) (present : list V) :
  rank_average leb v (sort_values leb present)
  = average_position (tied_positions leb v present).
Proof.
  unfold rank_average, average_position, tied_positions.
  rewrite (tie_group_ascending v _ (sort_values_ascending present) 1).
  unfold count_lt, count_eq.
  rewrite !(filter_length_perm _ _ _ (sort_values_perm present)).
  now rewrite length_seq.
Qed.

(** [Series.rank(pct=True)] is the counting percentile. *)
Lemma rank_pct_percentile (cells : list (option V)) :
  rank_pct leb cells = percentile_column leb cells.
Proof.
  unfold rank_pct, percentile_column, percentile.
  apply map_ext. intros [v|]; cbn; [|reflexivity].
  now rewrite rank_average_counts.
Qed.

Lemma counts_le_length (v : V) (present : list V) :
  count_lt leb v present + count_eq leb v present <= List.length present.
Proof.
  unfold count_lt, count_eq, ltv, eqv.
  induction present as [|x l IH]; cbn; [lia|].
  destruct (leb x v), (leb v x); cbn; lia.
Qed.

Lemma count_eq_pos (v : V) (present : list V) :
  In v present -> 1 <= count_eq leb v present.
Proof.
  unfold count_eq. induction present as [|x l IH]; cbn; [tauto|].
  intros [-> | H].
  - unfold eqv at 1. rewrite leb_refl. cbn. lia.
  - specialize (IH H). destruct (eqv leb x v); cbn; lia.
Qed.

Lemma list_sum_seq_bounds (a n : nat) :
  n * a <= list_sum (seq a n) /\ list_sum (seq a n) + n <= n * (a + n).
Proof.
  revert a. induction n as [|n IH]; intro a; cbn [seq list_sum fold_right]; [lia|].
  destruct (IH (S a)) as [Hlo Hhi]. fold (list_sum (seq (S a) n)).
  set (X := list_sum (seq (S a) n)) in *. clearbody X. clear IH.
  split; nia.
Qed.

Lemma percentile_unit (present : list V) (v : V) :
  In v present -> (0 <= percentile leb present v <= 1)%Q.
Proof.
  intro Hin. unfold percentile, average_position, tied_positions.
  rewrite length_seq.
  pose proof (count_eq_pos v present Hin) as He.
  pose proof (counts_le_length v present) as Hl.
  destruct (list_sum_seq_bounds (1 + count_lt leb v present) (count_eq leb v present))
    as [_ Hs].
  set (s := list_sum _) in *. set (e := count_eq leb v present) in *.
  set (k := count_lt leb v present) in *. set (n := List.length present) in *.
  assert (He' : (0 < Qnat e)%Q).
  { unfold Qnat. rewrite <- (Zlt_Qlt 0). lia. }
  assert (Hn' : (0 < Qnat n)%Q).
  { unfold Qnat. rewrite <- (Zlt_Qlt 0). lia. }
  assert (Hs' : (0 <= Qnat s)%Q).
  { unfold Qnat. rewrite <- (Zle_Qle 0). lia. }
  rewrite !Qred_correct. split.
  - apply Qle_shift_div_l; [exact Hn'|]. rewrite Qmult_0_l.
    apply Qle_shift_div_l; [exact He'|]. now rewrite Qmult_0_l.
  - apply Qle_shift_div_r; [exact Hn'|]. rewrite Qmult_1_l.
    apply Qle_shift_div_r; [exact He'|].
    unfold Qnat. rewrite <- inject_Z_mult, <- Zle_Qle. nia.
Qed.

Lemma percentile_column_unit (cells : list (option V)) :
  Forall in_unit (percentile_column leb cells).
Proof.
  unfold percentile_column. apply Forall_forall. intros c Hc.
  apply in_map_iff in Hc. destruct Hc as [[v|] [<- Hin]]; cbn; [|exact I].
  apply percentile_unit. unfold dropna. apply in_flat_map.
  exists (Some v). split; [exact Hin | now left].
Qed.

Lemma eqv_trans_l (v w x : V) : eqv leb v w = true -> leb x v = leb x w.
Proof.
  unfold eqv. intro H. apply andb_prop in H. destruct H as [Hvw Hwv].
  destruct (leb x v) eqn:E1, (leb x w) eqn:E2; try reflexivity.
  - rewrite (leb_trans _ _ _ E1 Hvw) in E2. discriminate.
  - rewrite (leb_trans _ _ _ E2 Hwv) in E1. discriminate.
Qed.

Lemma eqv_trans_r (v w x : V) : eqv leb v w = true -> leb v x = leb w x.
Proof.
  unfold eqv. intro H. apply andb_prop in H. destruct H as [Hvw Hwv].
  destruct (leb v x) eqn:E1, (leb w x) eqn:E2; try reflexivity.
  - rewrite (leb_trans _ _ _ Hwv E1) in E2. discriminate.
  - rewrite (leb_trans _ _ _ Hvw E2) in E1. discriminate.
Qed.

(** Tied values share their percentile. *)
Lemma percentile_tied (present : list V) (v w : V) :
  eqv leb v w = true -> percentile leb present v = percentile leb present w.
Proof.
  intro H. unfold percentile, tied_positions, count_lt, count_eq.
  assert (E1 : filter (fun x => ltv leb x v) present = filter (fun x => ltv leb x w) present).
  { apply filter_ext. intro x. unfold ltv.
    now rewrite (eqv_trans_l v w x H), (eqv_trans_r v w x H). }
  assert (E2 : filter (fun x => eqv leb x v) present = filter (fun x => eqv leb x w) present).
  { apply filter_ext. intro x. unfold eqv.
    now rewrite (eqv_trans_l v w x H), (eqv_trans_r v w x H). }
  now rewrite E1, E2.
Qed.

End RankFacts.

(** ** The order of the rationals *)

Lemma Qle_bool_total (x y : Q) : Qle_bool x y = true \/ Qle_bool y x = true.
Proof.
  rewrite !Qle_bool_iff. destruct (Qlt_le_dec x y) as [H | H].
  - left. now apply Qlt_le_weak.
  - now right.
Qed.

Lemma Qle_bool_trans (x y z : Q) :
  Qle_bool x y = true -> Qle_bool y z = true -> Qle_bool x z = true.
Proof. rewrite !Qle_bool_iff. apply Qle_trans. Qed.

Lemma eqv_Qeq (v w : Q) : (v == w)%Q -> eqv Qle_bool v w = true.
Proof.
  intro H. unfold eqv. apply andb_true_intro.
  rewrite !Qle_bool_iff, H. split; apply Qle_refl.
Qed.

(** ** [nanmean] is the mean of the available cells *)

Lemma fold_left_Qplus (l : list Q) (a : Q) :
  (fold_left Qplus l a == a + Qsum l)%Q.
Proof.
  revert a. induction l as [|q l IH]; intro a; cbn.
  - now rewrite Qplus_0_r.
  - rewrite IH. now rewrite Qplus_assoc.
Qed.

Lemma Qsum_fillna0 (cells : list (option Q)) :
  (Qsum (map fillna0 cells) == Qsum (dropna cells))%Q.
Proof.
  induction cells as [|[q|] l IH]; cbn.
  - reflexivity.
  - fold (Qsum (map fillna0 l)). fold (Qsum (dropna l)). now rewrite IH.
  - fold (Qsum (map fillna0 l)). fold (Qsum (dropna l)). now rewrite IH, Qplus_0_l.
Qed.

Lemma notna_count (cells : list (option Q)) :
  List.length (filter notna cells) = List.length (dropna cells).
Proof.
  induction cells as [|[q|] l IH]; cbn; [reflexivity | now rewrite IH | exact IH].
Qed.

Lemma nanmean_mean_available (cells : list (option Q)) :
  nanmean cells = mean_available cells.
Proof.
  unfold nanmean, mean_available, arithmetic_mean. rewrite notna_count.
  destruct (dropna cells) as [|q l] eqn:E; [reflexivity|].
  cbn [List.length Nat.eqb]. f_equal. apply Qred_complete.
  rewrite fold_left_Qplus, Qplus_0_l, Qsum_fillna0, E. reflexivity.
Qed.

Lemma nth_map_in {A B : Type} (f : A -> B) (l : list A) (i : nat) (d : B) (d' : A) :
  i < List.length l -> nth i (map f l) d = f (nth i l d').
Proof.
  revert i. induction l as [|x l IH]; intros [|i] H; cbn in *; try lia; [reflexivity|].
  apply IH. lia.
Qed.

(** A missing value is given a missing percentile. *)
Lemma rank_pct_missing {V : Type} (leb : V -> V -> bool) (cells : list (option V)) (i : nat) :
  nth i cells None = None -> nth i (rank_pct leb cells) None = None.
Proof.
  intro H. unfold rank_pct.
  destruct (Nat.lt_ge_cases i (List.length cells)) as [Hi | Hi].
  - rewrite (nth_map_in _ _ _ _ None Hi), H. reflexivity.
  - apply nth_overflow. now rewrite length_map.
Qed.

(** ** The frame [momentum_analysis] returns *)

(** [df[name]] is one column exactly when one column carries the label. *)
Lemma getitem_column (df : DataFrame) (name : string) (c : column) :
  getitem df name = Ok (Column c) <-> labelled df name = [(name, c)].
Proof.
  unfold getitem. split.
  - destruct (labelled df name) as [|[n c'] [|y l]] eqn:E; try discriminate.
    intros [= <-].
    assert (Hin : In (n, c') (labelled df name)) by (rewrite E; now left).
    apply filter_In in Hin. destruct Hin as [_ Hn]. cbn in Hn.
    apply String.eqb_eq in Hn. now subst n.
  - intros ->. reflexivity.
Qed.

(** The list selection of the five columns, when each label is carried by
    one column. *)
Lemma select_five (words : Wording) (stats_df : DataFrame) (c0 c1 c3 c6 cy : column) :
  getitem stats_df "symbol" = Ok (Column c0) ->
  getitem stats_df "month1ChangePercent" = Ok (Column c1) ->
  getitem stats_df "month3ChangePercent" = Ok (Column c3) ->
  getitem stats_df "month6ChangePercent" = Ok (Column c6) ->
  getitem stats_df "year1ChangePercent" = Ok (Column cy) ->
  select words stats_df ("symbol" :: change_columns)
  = Ok (mk_frame (nrows stats_df)
          [("symbol", c0); ("month1ChangePercent", c1); ("month3ChangePercent", c3);
           ("month6ChangePercent", c6); ("year1ChangePercent", cy)]).
Proof.
  intros H0 H1 H3 H6 Hy. apply getitem_column in H0, H1, H3, H6, Hy.
  unfold select, absent, change_columns. cbn [filter flat_map].
  rewrite H0, H1, H3, H6, Hy. reflexivity.
Qed.

Lemma momentum_analysis_run (words : Wording) (stats_df : DataFrame) (symbol : column)
      (m1 m3 m6 y1 : list (option Q)) :
  getitem stats_df "symbol" = Ok (Column symbol) ->
  getitem stats_df "month1ChangePercent" = Ok (Column (ColNum m1)) ->
  getitem stats_df "month3ChangePercent" = Ok (Column (ColNum m3)) ->
  getitem stats_df "month6ChangePercent" = Ok (Column (ColNum m6)) ->
  getitem stats_df "year1ChangePercent" = Ok (Column (ColNum y1)) ->
  let t1 := rank_pct Qle_bool m1 in
  let t3 := rank_pct Qle_bool m3 in
  let t6 := rank_pct Qle_bool m6 in
  let ty := rank_pct Qle_bool y1 in
  momentum_analysis words stats_df
  = Ok (mk_frame (nrows stats_df)
          [("symbol", symbol);
           ("month1ChangePercent", ColNum m1);
           ("month3ChangePercent", ColNum m3);
           ("month6ChangePercent", ColNum m6);
           ("year1ChangePercent", ColNum y1);
           ("month1ChangePercent_tile", ColNum t1);
           ("month3ChangePercent_tile", ColNum t3);
           ("month6ChangePercent_tile", ColNum t6);
           ("year1ChangePercent_tile", ColNum ty);
           ("avgPercentiles",
            ColNum (map (fun i => nanmean [nth i t1 None; nth i t3 None;
                                           nth i t6 None; nth i ty None])
                        (seq 0 (nrows stats_df))))]).
Proof.
  intros Hs H1 H3 H6 Hy. cbv zeta.
  unfold momentum_analysis.
  rewrite (select_five words stats_df _ _ _ _ _ Hs H1 H3 H6 Hy). reflexivity.
Qed.

(** C1.  On a table in which the label [symbol] and the labels of the
    four change columns each name one column, the change columns numeric,
    [momentum_analysis] returns a table in which, for
    each of the four columns by itself, the column [<name>_tile] holds for
    a missing value a missing percentile and for a value [v] the average of
    the rank positions that the values tied with [v] occupy in ascending
    order, divided by the number of non-missing values of that column.
    Every percentile lies in [0, 1], and tied values have the same
    percentile. *)
Theorem momentum_percentiles :
  forall (words : Wording) (stats_df : DataFrame) (symbol : column)
         (m1 m3 m6 y1 : list (option Q)),
    getitem stats_df "symbol" = Ok (Column symbol) ->
    getitem stats_df "month1ChangePercent" = Ok (Column (ColNum m1)) ->
    getitem stats_df "month3ChangePercent" = Ok (Column (ColNum m3)) ->
    getitem stats_df "month6ChangePercent" = Ok (Column (ColNum m6)) ->
    getitem stats_df "year1ChangePercent" = Ok (Column (ColNum y1)) ->
    exists mom_df : DataFrame,
      momentum_analysis words stats_df = Ok mom_df
      /\ forall (time : string) (cells : list (option Q)),
          In (time, cells)
             [("month1ChangePercent", m1); ("month3ChangePercent", m3);
              ("month6ChangePercent", m6); ("year1ChangePercent", y1)] ->
          exists tile : list (option Q),
            getitem mom_df (time ++ "_tile") = Ok (Column (ColNum tile))
            /\ tile
               = map (option_map
                        (fun v =>
                           Qred (average_position (tied_positions Qle_bool v (dropna cells))
                                 / Qnat (List.length (dropna cells)))))
                     cells
            /\ Forall in_unit tile
            /\ (forall (i j : nat) (v w : Q),
                   nth_error cells i = Some (Some v) ->
                   nth_error cells j = Some (Some w) ->
                   (v == w)%Q ->
                   nth_error tile i = nth_error tile j).
Proof.
  intros words stats_df symbol m1 m3 m6 y1 Hs H1 H3 H6 Hy.
  eexists. split; [exact (momentum_analysis_run words _ _ _ _ _ _ Hs H1 H3 H6 Hy)|].
  intros time cells Hin.
  exists (percentile_column Qle_bool cells).
  split; [|split; [|split]].
  - rewrite <- (rank_pct_percentile Q Qle_bool Qle_bool_total Qle_bool_trans).
    cbn in Hin.
    destruct Hin as [E | [E | [E | [E | []]]]]; inversion E; subst; reflexivity.
  - reflexivity.
  - apply (percentile_column_unit Q Qle_bool Qle_bool_total).
  - intros i j v w Hi Hj Hvw. unfold percentile_column.
    rewrite !nth_error_map, Hi, Hj. cbn. do 2 f_equal.
    apply (percentile_tied Q Qle_bool Qle_bool_trans). now apply eqv_Qeq.
Qed.

(** The specification's example: changes 0.10, 0.05, 0.20, 0.05 have the
    percentiles 3/4, 3/8, 1, 3/8. *)
Lemma momentum_percentiles_witness :
  exists mom_df : DataFrame,
    momentum_analysis plain_wording example_stats = Ok mom_df
    /\ getitem mom_df "month1ChangePercent_tile"
       = Ok (Column (ColNum [Some (3 # 4); Some (3 # 8); Some 1; Some (3 # 8)]%Q)).
Proof.
  destruct (momentum_percentiles plain_wording example_stats _ _ _ _ _
              eq_refl eq_refl eq_refl eq_refl eq_refl) as [mom_df [Hrun Hcols]].
  exists mom_df. split; [exact Hrun|].
  destruct (Hcols "month1ChangePercent" _ (or_introl eq_refl)) as [tile [Hget [Htile _]]].
  rewrite Htile in Hget. exact Hget.
Defined.

(** C2.  On a table in which the label [symbol] and the labels of the
    four change columns each name one column, the change columns numeric,
    the column [avgPercentiles] holds, row by row, the arithmetic mean
    of the percentiles available among the four [_tile] columns: a missing
    source value gives a missing percentile, which is left out of the sum
    and of the count (it is not counted as zero); a row with no percentile
    at all has a missing average. *)
Theorem momentum_average :
  forall (words : Wording) (stats_df : DataFrame) (symbol : column)
         (m1 m3 m6 y1 : list (option Q)),
    getitem stats_df "symbol" = Ok (Column symbol) ->
    getitem stats_df "month1ChangePercent" = Ok (Column (ColNum m1)) ->
    getitem stats_df "month3ChangePercent" = Ok (Column (ColNum m3)) ->
    getitem stats_df "month6ChangePercent" = Ok (Column (ColNum m6)) ->
    getitem stats_df "year1ChangePercent" = Ok (Column (ColNum y1)) ->
    exists (mom_df : DataFrame) (t1 t3 t6 ty avg : list (option Q)),
      momentum_analysis words stats_df = Ok mom_df
      /\ getitem mom_df "month1ChangePercent_tile" = Ok (Column (ColNum t1))
      /\ getitem mom_df "month3ChangePercent_tile" = Ok (Column (ColNum t3))
      /\ getitem mom_df "month6ChangePercent_tile" = Ok (Column (ColNum t6))
      /\ getitem mom_df "year1ChangePercent_tile" = Ok (Column (ColNum ty))
      /\ getitem mom_df "avgPercentiles" = Ok (Column (ColNum avg))
      /\ List.length avg = nrows stats_df
      /\ forall i : nat,
          i < nrows stats_df ->
          nth i avg None
          = mean_available [nth i t1 None; nth i t3 None; nth i t6 None; nth i ty None]
          /\ (nth i m1 None = None -> nth i t1 None = None)
          /\ (nth i m3 None = None -> nth i t3 None = None)
          /\ (nth i m6 None = None -> nth i t6 None = None)
          /\ (nth i y1 None = None -> nth i ty None = None).
Proof.
  intros words stats_df symbol m1 m3 m6 y1 Hs H1 H3 H6 Hy.
  pose proof (momentum_analysis_run words _ _ _ _ _ _ Hs H1 H3 H6 Hy) as Hrun. cbv zeta in Hrun.
  eexists. exists (rank_pct Qle_bool m1), (rank_pct Qle_bool m3),
             (rank_pct Qle_bool m6), (rank_pct Qle_bool y1).
  eexists. split; [exact Hrun|].
  do 5 (split; [reflexivity|]).
  split; [now rewrite length_map, length_seq|].
  intros i Hi.
  split; [|repeat split; apply rank_pct_missing].
  rewrite <- nanmean_mean_available.
  rewrite (nth_map_in _ _ _ _ 0) by now rewrite length_seq.
  now rewrite seq_nth.
Qed.

(** In the example MSFT has a one-month change only: its average is that
    one percentile, 3/8, and not 3/8 divided by four. *)
Lemma momentum_average_witness :
  exists (mom_df : DataFrame) (avg : list (option Q)),
    momentum_analysis plain_wording example_stats = Ok mom_df
    /\ getitem mom_df "avgPercentiles" = Ok (Column (ColNum avg))
    /\ nth 1 avg None = Some (3 # 8)%Q.
Proof.
  destruct (momentum_average plain_wording example_stats _ _ _ _ _
              eq_refl eq_refl eq_refl eq_refl eq_refl)
    as [mom_df [t1 [t3 [t6 [ty [avg [Hrun [H1 [H3 [H6 [Hy [Havg [_ Hrows]]]]]]]]]]]]].
  exists mom_df, avg. split; [exact Hrun|]. split; [exact Havg|].
  assert (Hrow : 1 < nrows example_stats) by (cbn; lia).
  destruct (Hrows 1 Hrow) as [Hmean _]. rewrite Hmean.
  vm_compute in Hrun. injection Hrun as <-.
  vm_compute in H1. injection H1 as <-.
  vm_compute in H3. injection H3 as <-.
  vm_compute in H6. injection H6 as <-.
  vm_compute in Hy. injection Hy as <-.
  reflexivity.
Defined.


(* ================================================================== *)
(** * Properties of the flattening *)
(* ================================================================== *)

Lemma union_labels_subset (ss : list Series) (l : label) :
  mem_label l (union_labels ss) = true ->
  existsb (label_eqb l) (flat_map (map fst) ss) = true.
Proof.
  unfold union_labels.
  assert (G : forall ls acc,
             mem_label l (fold_left (fun acc l' => if mem_label l' acc then acc
                                                   else (acc ++ [l'])%list) ls acc) = true ->
             mem_label l acc = true \/ existsb (label_eqb l) ls = true).
  { induction ls as [|x ls IH]; intros acc H; cbn in *; [now left|].
    destruct (IH _ H) as [Hacc | Hls].
    - destruct (mem_label x acc); [now left|].
      unfold mem_label in Hacc. rewrite existsb_app in Hacc. cbn in Hacc.
      rewrite orb_false_r in Hacc. apply orb_prop in Hacc.
      destruct Hacc as [Hacc | Hx]; [now left | right; now rewrite Hx].
    - right. rewrite Hls. apply orb_true_r. }
  intro H. destruct (G _ _ H) as [Hnil | Hin]; [discriminate | exact Hin].
Qed.

(** When no symbol of the response carries the nested object, the lookup
    of its column raises, and with it the whole call. *)
Lemma flatten_response_KeyError (nested : string) (d : batch) :
  nested <> "symbol" ->
  Forall (fun e => Forall (fun kv => fst kv <> nested) (snd e)) d ->
  flatten_response nested d = Raise (KeyError nested).
Proof.
  intros Hsym Hnone. unfold flatten_response, ogetitem.
  set (df := osetitem _ _ _).
  assert (G : mem_label (LStr nested) (labels df) = false).
  { subst df. unfold osetitem. cbn [labels].
    assert (G0 : mem_label (LStr nested) (labels (from_dict_transpose d)) = false).
    { destruct (mem_label _ _) eqn:E; [|reflexivity].
      apply union_labels_subset in E. apply existsb_exists in E.
      destruct E as [l [Hin Hl]]. apply in_flat_map in Hin.
      destruct Hin as [s [Hs Hl']]. apply in_map_iff in Hs.
      destruct Hs as [e [<- He]]. rewrite map_map in Hl'. apply in_map_iff in Hl'.
      destruct Hl' as [kv [<- Hkv]]. cbn in Hl. apply String.eqb_eq in Hl.
      rewrite Forall_forall in Hnone. specialize (Hnone e He).
      rewrite Forall_forall in Hnone. exfalso. apply (Hnone kv Hkv). now symmetry. }
    destruct (mem_label (LStr "symbol") _); [exact G0|].
    unfold mem_label in *. rewrite existsb_app, G0. cbn.
    rewrite orb_false_r. apply String.eqb_neq. exact Hsym. }
  rewrite G. reflexivity.
Qed.

(** C5.  The flattening does not tolerate a response in which no symbol
    carries the nested object: for [{"TSLA": {}}] the lookup of the
    ['stats'] column raises [KeyError] and no table is produced, and
    likewise for ['advanced-stats'].  (When some symbol carries the nested
    object the others are tolerated: the specification's own example gives
    two rows, with [peRatio] 30 for AAPL and missing for TSLA, and one
    further column, labelled 0, that is missing in every row.) *)
Theorem flatten_fails_without_nested :
  get_symbol_stats_frame [("TSLA", [])] = Raise (KeyError "stats")
  /\ get_advanced_symbol_stats_frame [("TSLA", [])] = Raise (KeyError "advanced-stats")
  /\ get_symbol_stats_frame [("AAPL", []); ("TSLA", [("price", JNum (250 # 1))])]
     = Raise (KeyError "stats")
  /\ get_symbol_stats_frame
       [("AAPL", [("stats", JObj [("peRatio", JNum (30 # 1))])]); ("TSLA", [])]
     = Ok (mk_oframe
             [LStr "symbol"; LStr "peRatio"; LInt 0]
             [[(LStr "symbol", Val (JStr "AAPL")); (LStr "peRatio", Val (JNum (30 # 1)));
               (LInt 0, NaN)];
              [(LStr "symbol", Val (JStr "TSLA")); (LStr "peRatio", NaN);
               (LInt 0, NaN)]]).
Proof. repeat split. Qed.

(* ================================================================== *)
(** * Further properties of the request builder *)
(* ================================================================== *)

Lemma str_length_append (a b : string) :
  String.length (a ++ b) = String.length a + String.length b.
Proof. induction a as [|x a IH]; cbn; [reflexivity | now rewrite IH]. Qed.

(** Every URL the builder makes is longer than the placeholder. *)
Lemma batch_url_long (base : option string) (joined_symbols joined_data_set : string) :
  8 < String.length (batch_url base joined_symbols joined_data_set).
Proof. unfold batch_url. rewrite !str_length_append. cbn. lia. Qed.

Lemma sectors_url_long (base : option string) : 8 < String.length (sectors_url base).
Proof. unfold sectors_url. rewrite !str_length_append. cbn. lia. Qed.

Lemma create_request_try_long (self : IEXApi) (rt symbols data_set : value)
      (w : World) (s : string) :
  fst (_create_request_try self rt symbols data_set w) = Ok s -> 8 < String.length s.
Proof.
  unfold _create_request_try, bind, lift, ret, raise.
  destruct (eq_str rt "stat" || eq_str rt "info").
  - destruct (negb (isinstance_list symbols) || is_None symbols
              || negb (isinstance_list data_set) || is_None data_set); [discriminate|].
    destruct (str_join "," data_set); [|discriminate].
    destruct (str_join "," symbols); [|discriminate].
    cbn. intro H. inversion H. apply batch_url_long.
  - destruct (eq_str rt "sector_list"); [|discriminate].
    cbn. intro H. inversion H. apply sectors_url_long.
Qed.

Lemma snoc_neq {A : Type} (l : list A) (x : A) : (l ++ [x])%list <> l.
Proof.
  intro H. apply (f_equal (@List.length A)) in H. rewrite length_app in H. cbn in H. lia.
Qed.

(** X1.  The placeholder is returned exactly when the [try] block raised,
    which is exactly when an error record was logged; a string returned
    without an error is never the placeholder, and leaves the log as it
    was.  In no case does the builder issue a request. *)
Theorem create_request_placeholder_iff :
  forall (self : IEXApi) (rt symbols data_set : value) (w : World),
    let run := _create_request self rt symbols data_set w in
    gets (snd run) = gets w
    /\ (fst run = Ok placeholder
        <-> exists e, fst (_create_request_try self rt symbols data_set w) = Raise e)
    /\ (fst run = Ok placeholder <-> exists e, snd run = logged_error w e)
    /\ (fst run = Ok placeholder \/ snd run = w).
Proof.
  intros self rt symbols data_set w. cbv zeta.
  destruct (fst (_create_request_try self rt symbols data_set w)) as [s|e] eqn:E.
  - rewrite (create_request_returned _ _ _ _ _ _ E). cbn [fst snd].
    pose proof (create_request_try_long _ _ _ _ _ _ E) as Hlen.
    assert (Hs : Ok s <> Ok placeholder).
    { intro H. inversion H; subst. cbn in Hlen. lia. }
    repeat split.
    + intro H. now destruct Hs.
    + intros [e He]. discriminate.
    + intro H. now destruct Hs.
    + intros [e He]. exfalso. unfold logged_error in He.
      apply (f_equal log) in He. cbn in He. symmetry in He. exact (snoc_neq _ _ He).
    + now right.
  - rewrite (create_request_caught _ _ _ _ _ _ E). cbn [fst snd].
    repeat split; try reflexivity; eauto.
Qed.

Lemma create_request_placeholder_iff_witness :
  fst (_create_request sandbox (PyStr "quote") PyNone PyNone idle) = Ok placeholder
  /\ gets (snd (_create_request sandbox (PyStr "quote") PyNone PyNone idle)) = [].
Proof.
  destruct (create_request_placeholder_iff sandbox (PyStr "quote") PyNone PyNone idle)
    as [Hgets [Hraised _]].
  split; [|exact Hgets].
  apply Hraised. now exists NotImplementedError.
Defined.

Lemma join_from_ok_strs (sep : string) (items : list value) (i : nat) (s : string) :
  join_from sep i items = Ok s -> exists ss, items = map PyStr ss.
Proof.
  revert i s. induction items as [|x l IH]; intros i s H.
  - now exists [].
  - cbn [join_from] in H. destruct x as [| t | z | xs]; try discriminate.
    destruct l as [|y l].
    + now exists [t].
    + destruct (join_from sep (S i) (y :: l)) as [r|e] eqn:E; [|discriminate].
      destruct (IH _ _ E) as [ss Hss]. exists (t :: ss). cbn. now rewrite Hss.
Qed.

(** X2.  For kind [stat] or [info] the builder returns a URL (a string
    other than the placeholder) exactly when both [symbols] and [data_set]
    are lists all of whose items are strings. *)
Theorem create_request_succeeds_iff_strs :
  forall (self : IEXApi) (rt : string) (symbols data_set : value) (w : World),
    rt = "stat" \/ rt = "info" ->
    ((exists ss ds : list string,
         symbols = PyList (map PyStr ss) /\ data_set = PyList (map PyStr ds))
     <-> fst (_create_request self (PyStr rt) symbols data_set w) <> Ok placeholder).
Proof.
  intros self rt symbols data_set w Hrt. split.
  - intros [ss [ds [-> ->]]]. rewrite (create_request_strs self rt ss ds w Hrt).
    cbn [fst]. intro H. inversion H as [Hu].
    pose proof (batch_url_long (base_url self) (String.concat "," ss) (String.concat "," ds))
      as Hlen.
    rewrite Hu in Hlen. cbn in Hlen. lia.
  - intro Hok.
    destruct (fst (_create_request_try self (PyStr rt) symbols data_set w)) as [s|e] eqn:E.
    + revert E. unfold _create_request_try, bind, lift, ret, raise.
      rewrite (batch_kind rt Hrt).
      destruct symbols as [| t | z | ss]; cbn [isinstance_list is_None negb orb];
        try discriminate.
      destruct data_set as [| t | z | ds]; cbn [isinstance_list is_None negb orb];
        try discriminate.
      cbn [str_join].
      destruct (join_from "," 0 ds) as [jd|] eqn:Ed; [|discriminate].
      destruct (join_from "," 0 ss) as [js|] eqn:Es; [|discriminate].
      intros _.
      destruct (join_from_ok_strs _ _ _ _ Es) as [ss' ->].
      destruct (join_from_ok_strs _ _ _ _ Ed) as [ds' ->].
      now exists ss', ds'.
    + exfalso. apply Hok. now rewrite (create_request_caught _ _ _ _ _ _ E).
Qed.

Lemma create_request_succeeds_iff_strs_witness :
  fst (_create_request sandbox (PyStr "info") (PyList [PyStr "NVDA"; PyStr "PLTR"])
                       (PyList [PyStr "company"]) idle)
  <> Ok placeholder.
Proof.
  apply (create_request_succeeds_iff_strs sandbox "info" _ _ idle (or_intror eq_refl)).
  now exists ["NVDA"; "PLTR"], ["company"].
Defined.

(* ================================================================== *)
(** * Further properties of the client *)
(* ================================================================== *)

(** X3.  [_send_request] logs the complete URL, token included, before the
    request is made; the status code is logged only when the request
    returns, and an exception of the HTTP stack propagates after the first
    record. *)
Theorem send_request_effects :
  forall (http : string -> result Response) (self : IEXApi) (request : string) (w : World),
    _send_request http self request w
    = (http (request ++ "token=" ++ opt_str (token self)),
       mk_world
         (log w
            ++ mk_log INFO ("Sending Request - " ++ request ++ "token="
                              ++ opt_str (token self)) None
            :: match http (request ++ "token=" ++ opt_str (token self))%string with
               | Ok data =>
                   [mk_log INFO ("Request Status Code - " ++ int_str (status_code data))
                           None]
               | Raise _ => []
               end)%list
         (gets w ++ [(request ++ "token=" ++ opt_str (token self))%string])%list).
Proof.
  intros http self request w. rewrite send_request_run. cbv zeta.
  destruct (http _); [|reflexivity].
  now rewrite <- app_assoc.
Qed.

Lemma send_request_after (http : string -> result Response) (self : IEXApi)
      (request : string) (w : World) :
  _send_request http self request w
  = (http (with_token self request), after_send http w (with_token self request)).
Proof.
  rewrite send_request_run. cbv zeta. unfold after_send, with_token.
  destruct (http _); [|reflexivity].
  now rewrite <- app_assoc.
Qed.

Lemma fetch_stats_run (http : string -> result Response) (data_set : list string)
      (self : IEXApi) (symbols : list value) (w w1 : World) (req : string) :
  List.length symbols <= 100 ->
  _create_request self (PyStr "stat") (PyList symbols) (PyList (map PyStr data_set)) w
  = (Ok req, w1) ->
  fetch_stats http data_set self (PyList symbols) w
  = (fetched (http (with_token self req)), after_send http w1 (with_token self req)).
Proof.
  intros Hlen Hreq. unfold fetch_stats, bind, lift, len.
  apply Nat.ltb_ge in Hlen. rewrite Hlen, Hreq, send_request_after.
  unfold ret, fetched. destruct (http _); reflexivity.
Qed.

(** X4.  [get_symbol_info] has no limit on the number of symbols: for a
    list of strings of any length it makes one request, to the batch URL of
    the [company] dataset, and logs no error. *)
Theorem symbol_info_unbounded :
  forall (http : string -> result Response) (self : IEXApi) (symbols : list string)
         (w : World),
    let url := (opt_str (base_url self) ++ "/stable/stock/market/batch?symbols="
                  ++ String.concat "," symbols ++ "&types=company&token="
                  ++ opt_str (token self))%string in
    get_symbol_info http self (PyList (map PyStr symbols)) w
    = (http url, after_send http w url).
Proof.
  intros http self symbols w. cbv zeta. unfold get_symbol_info, bind.
  change (PyList [PyStr "company"]) with (PyList (map PyStr ["company"])).
  rewrite create_request_strs by (right; reflexivity).
  rewrite send_request_after. unfold with_token, batch_url. cbn [String.concat].
  rewrite !str_append_assoc. reflexivity.
Qed.

(** X5.  [get_sector_list] makes one request, to
    [<base_url>/stable/ref-data/sectors?token=<token>], and returns or
    raises what that request does. *)
Theorem sector_list_request :
  forall (http : string -> result Response) (self : IEXApi) (w : World),
    let url := (opt_str (base_url self) ++ "/stable/ref-data/sectors?token="
                  ++ opt_str (token self))%string in
    get_sector_list http self w = (http url, after_send http w url).
Proof.
  intros http self w. cbv zeta. unfold get_sector_list, bind.
  assert (E : _create_request self (PyStr "sector_list") PyNone PyNone w
              = (Ok (sectors_url (base_url self)), w)) by reflexivity.
  rewrite E, send_request_after. unfold with_token, sectors_url.
  rewrite !str_append_assoc. reflexivity.
Qed.

Lemma join_from_bad_item (sep : string) (items : list value) (i : nat) (v : value) :
  In v items -> (forall s, v <> PyStr s) -> exists e, join_from sep i items = Raise e.
Proof.
  revert i. induction items as [|x l IH]; intros i Hin Hv; [destruct Hin|].
  cbn [join_from]. destruct x as [| t | z | xs]; try (eexists; reflexivity).
  destruct Hin as [<- | Hin]; [now destruct (Hv t)|].
  destruct l as [|y l]; [destruct Hin|].
  destruct (IH (S i) Hin Hv) as [e He]. rewrite He. now exists e.
Qed.

(** X6.  The fetchers do not stop at a failed build.  With at most 100
    items of which one is not a string, the builder logs its error and
    returns the placeholder, and the fetcher goes on to request the
    placeholder followed by the token.  An argument without a length
    ([None], an [int]) raises [TypeError] before anything is logged or
    requested. *)
Theorem fetchers_send_placeholder :
  forall (http : string -> result Response) (self : IEXApi) (w : World),
    (forall (symbols : list value) (v : value),
        List.length symbols <= 100 ->
        In v symbols ->
        (forall s, v <> PyStr s) ->
        exists e,
          let url := (placeholder ++ "token=" ++ opt_str (token self))%string in
          get_stats http self (PyList symbols) w
          = (fetched (http url), after_send http (logged_error w e) url)
          /\ get_advanced_stats http self (PyList symbols) w
             = (fetched (http url), after_send http (logged_error w e) url))
    /\ (forall symbols : value,
           symbols = PyNone \/ (exists z, symbols = PyInt z) ->
           exists m,
             get_stats http self symbols w = (Raise (TypeError m), w)
             /\ get_advanced_stats http self symbols w = (Raise (TypeError m), w)).
Proof.
  intros http self w. split.
  - intros symbols v Hlen Hin Hv.
    destruct (join_from_bad_item "," symbols 0 v Hin Hv) as [e He].
    exists e. cbv zeta.
    assert (Hreq : forall ds,
               _create_request self (PyStr "stat") (PyList symbols) (PyList (map PyStr ds)) w
               = (Ok placeholder, logged_error w e)).
    { intro ds. apply create_request_caught.
      unfold _create_request_try. rewrite (batch_kind "stat" (or_introl eq_refl)).
      cbn [isinstance_list is_None negb orb]. unfold bind, lift.
      rewrite str_join_strs. cbn [str_join]. now rewrite He. }
    split.
    + exact (fetch_stats_run http _ self symbols w _ _ Hlen (Hreq ["stats"; "price"])).
    + exact (fetch_stats_run http _ self symbols w _ _ Hlen (Hreq ["advanced-stats"])).
  - intros symbols [-> | [z ->]]; eexists; split; reflexivity.
Qed.

Lemma fetchers_send_placeholder_witness :
  gets (snd (get_stats always_up sandbox (PyList [PyStr "AAPL"; PyNone]) idle))
  = ["fuck offtoken=Tpk_0123"].
Proof.
  destruct (fetchers_send_placeholder always_up sandbox idle) as [Hbad _].
  assert (Hlen : List.length [PyStr "AAPL"; PyNone] <= 100) by (cbn; lia).
  assert (Hin : In PyNone [PyStr "AAPL"; PyNone]) by (right; left; reflexivity).
  assert (Hv : forall s, PyNone <> PyStr s) by discriminate.
  destruct (Hbad _ _ Hlen Hin Hv) as [e [Hrun _]].
  rewrite Hrun. reflexivity.
Defined.

(* ================================================================== *)
(** * Further properties of the chunker *)
(* ================================================================== *)

Section ChunkShapes.

Context {A : Type}.
Implicit Types (l : list A) (cs : list (list A)).

(** The [k]-th sub-list yielded from loop variable [i] on. *)
Lemma drain_nth (n : nat) l (fuel : nat) :
  forall (i : nat) cs,
    drain fuel l n i = Some cs ->
    forall (k : nat) (c : list A),
      nth_error cs k = Some c ->
      c = slice l (i + k * n) (i + k * n + n) /\ i + k * n < List.length l.
Proof.
  induction fuel as [|fuel IH]; intros i cs Hd k c Hk; [discriminate|].
  cbn [drain] in Hd. unfold chunk_next in Hd.
  destruct (i <? List.length l)%nat eqn:Hi.
  - destruct (drain fuel l n (i + n)) as [cs'|] eqn:Hd'; [|discriminate].
    inversion Hd; subst cs. destruct k as [|k]; cbn in Hk.
    + inversion Hk; subst c. cbn [Nat.mul]. rewrite Nat.add_0_r.
      split; [reflexivity | now apply Nat.ltb_lt].
    + destruct (IH _ _ Hd' _ _ Hk) as [Hc Hlt].
      replace (i + S k * n) with (i + n + k * n) by lia. now split.
  - inversion Hd; subst cs. destruct k; discriminate.
Qed.

(** How many sub-lists are yielded from [i] on. *)
Lemma drain_count (n : nat) l (fuel : nat) :
  1 <= n ->
  forall (i : nat) cs,
    drain fuel l n i = Some cs ->
    List.length l - i <= List.length cs * n
    /\ List.length cs * n < List.length l - i + n.
Proof.
  intro Hn. induction fuel as [|fuel IH]; intros i cs Hd; [discriminate|].
  cbn [drain] in Hd. unfold chunk_next in Hd.
  destruct (i <? List.length l)%nat eqn:Hi.
  - destruct (drain fuel l n (i + n)) as [cs'|] eqn:Hd'; [|discriminate].
    inversion Hd; subst cs. apply Nat.ltb_lt in Hi.
    destruct (IH _ _ Hd') as [Hlo Hhi]. cbn [List.length].
    destruct (Nat.le_gt_cases (i + n) (List.length l)) as [Hfit | Hlast].
    + split; nia.
    + assert (Hnone : List.length cs' = 0) by nia. rewrite Hnone. split; lia.
  - inversion Hd; subst cs. apply Nat.ltb_ge in Hi. cbn. lia.
Qed.

End ChunkShapes.

(** X7.  For a chunk size [n >= 1] the [k]-th sub-list yielded is
    [symbols[k*n : k*n + n]]; none is empty, every one but the last has
    exactly [n] items, and there are [ceil(len(symbols) / n)] of them. *)
Theorem chunk_symbols_list_shape :
  forall (A : Type) (symbols : list A) (n : Z),
    (1 <= n)%Z ->
    exists chunks : list (list A),
      _chunk_symbols_list (S (List.length symbols)) symbols n = Some (Ok chunks)
      /\ List.length chunks = (List.length symbols + Z.to_nat n - 1) / Z.to_nat n
      /\ forall (k : nat) (c : list A),
          nth_error chunks k = Some c ->
          c = slice symbols (k * Z.to_nat n) (k * Z.to_nat n + Z.to_nat n)
          /\ 1 <= List.length c
          /\ (S k < List.length chunks -> List.length c = Z.to_nat n).
Proof.
  intros A symbols n Hn.
  assert (Hstep : 1 <= Z.to_nat n) by lia.
  destruct (drain_exhausts (Z.to_nat n) symbols Hstep (S (List.length symbols)) 0)
    as [cs [Hd _]]; [lia|].
  exists cs. unfold _chunk_symbols_list.
  destruct (n =? 0)%Z eqn:E0; [lia|]. destruct (n <? 0)%Z eqn:E1; [lia|].
  rewrite Hd. split; [reflexivity|].
  set (m := Z.to_nat n) in *.
  destruct (drain_count m symbols _ Hstep _ _ Hd) as [Hlo Hhi].
  rewrite Nat.sub_0_r in Hlo, Hhi.
  split.
  - apply Nat.div_unique
      with (r := List.length symbols + m - 1 - m * List.length cs); nia.
  - intros k c Hk.
    destruct (drain_nth m symbols _ _ _ Hd _ _ Hk) as [Hc Hlt]. cbn [Nat.add] in Hc, Hlt.
    split; [exact Hc|].
    assert (Hsize : List.length c = Nat.min m (List.length symbols - k * m)).
    { rewrite Hc. apply slice_length. }
    split; [lia|].
    intro Hnext.
    destruct (nth_error cs (S k)) as [c'|] eqn:Hk'.
    + destruct (drain_nth m symbols _ _ _ Hd _ _ Hk') as [_ Hlt']. cbn [Nat.add] in Hlt'.
      cbn [Nat.mul] in Hlt'. lia.
    + apply nth_error_None in Hk'. lia.
Qed.

Lemma chunk_symbols_list_shape_witness :
  exists chunks : list (list nat),
    _chunk_symbols_list 8 [0; 1; 2; 3; 4; 5; 6] 3 = Some (Ok chunks)
    /\ List.length chunks = 3.
Proof.
  assert (Hn : (1 <= 3)%Z) by lia.
  destruct (chunk_symbols_list_shape nat [0; 1; 2; 3; 4; 5; 6] 3 Hn)
    as [chunks [Hrun [Hcount _]]].
  exists chunks. split; [exact Hrun | exact Hcount].
Defined.

(** X8.  A chunk size that is not positive loses the input: zero makes
    [range] raise [ValueError] at the first resumption, and a negative
    size ends the generator at once, so that nothing is yielded.  With a
    positive size nothing is yielded only for the empty list. *)
Theorem chunk_symbols_list_steps :
  forall (A : Type) (symbols : list A) (fuel : nat),
    _chunk_symbols_list fuel symbols 0
    = Some (Raise (ValueError "range() arg 3 must not be zero"))
    /\ (forall n : Z, (n < 0)%Z -> _chunk_symbols_list fuel symbols n = Some (Ok []))
    /\ (forall n : Z,
           (1 <= n)%Z ->
           (_chunk_symbols_list (S (List.length symbols)) symbols n = Some (Ok [])
            <-> symbols = [])).
Proof.
  intros A symbols fuel. split; [reflexivity|]. split.
  - intros n Hn. unfold _chunk_symbols_list.
    destruct (n =? 0)%Z eqn:E0; [lia|]. destruct (n <? 0)%Z eqn:E1; [reflexivity | lia].
  - intros n Hn. split.
    + intro Hrun. unfold _chunk_symbols_list in Hrun.
      destruct (n =? 0)%Z eqn:E0; [lia|]. destruct (n <? 0)%Z eqn:E1; [lia|].
      destruct (drain _ symbols _ 0) as [cs|] eqn:Hd; [|discriminate].
      inversion Hrun; subst cs.
      assert (Hstep : 1 <= Z.to_nat n) by lia.
      destruct (drain_count _ symbols _ Hstep _ _ Hd) as [Hlo _]. cbn in Hlo.
      destruct symbols; [reflexivity | cbn in Hlo; lia].
    + intros ->. unfold _chunk_symbols_list.
      destruct (n =? 0)%Z eqn:E0; [lia|]. destruct (n <? 0)%Z eqn:E1; [lia|]. reflexivity.
Qed.

Lemma chunk_symbols_list_steps_witness :
  _chunk_symbols_list 5 ["AAPL"; "MSFT"] (-100) = Some (Ok [])
  /\ _chunk_symbols_list 3 ["AAPL"; "MSFT"] 100 <> Some (Ok []).
Proof.
  destruct (chunk_symbols_list_steps string ["AAPL"; "MSFT"] 5) as [_ [Hneg Hpos]].
  split.
  - apply Hneg. lia.
  - intro H. assert (Hn : (1 <= 100)%Z) by lia.
    apply (Hpos 100%Z Hn) in H. discriminate.
Defined.

(** X9.  Chunks of size 100 are what the fetchers accept: every sub-list
    that [_chunk_symbols_list(symbols, 100)] yields for a list of strings
    passes the length check of [get_stats], which makes one request for
    it, to the batch URL of that sub-list. *)
Theorem chunks_fit_get_stats :
  forall (http : string -> result Response) (self : IEXApi) (symbols : list string)
         (w : World),
    exists chunks : list (list string),
      _chunk_symbols_list (S (List.length symbols)) symbols 100 = Some (Ok chunks)
      /\ concat chunks = symbols
      /\ Forall
           (fun c =>
              let url := with_token self
                           (batch_url (base_url self) (String.concat "," c) "stats,price") in
              get_stats http self (PyList (map PyStr c)) w
              = (fetched (http url), after_send http w url))
           chunks.
Proof.
  intros http self symbols w.
  assert (Hstep : 1 <= Z.to_nat 100) by lia.
  destruct (drain_exhausts (Z.to_nat 100) symbols Hstep (S (List.length symbols)) 0)
    as [cs [Hd [Hc [Hf _]]]]; [lia|].
  exists cs. split; [|split].
  - unfold _chunk_symbols_list. cbn [Z.eqb Z.ltb Z.compare]. now rewrite Hd.
  - exact Hc.
  - eapply Forall_impl; [|exact Hf]. cbn beta. intros c Hlen. cbv zeta.
    unfold get_stats. apply fetch_stats_run.
    + rewrite length_map. change (Z.to_nat 100) with 100 in Hlen. exact Hlen.
    + now rewrite create_request_strs by (left; reflexivity).
Qed.

(* ================================================================== *)
(** * Further properties of the ranking *)
(* ================================================================== *)

Section RankOrder.

Variable V : Type.
Variable leb : V -> V -> bool.
Hypothesis leb_total : forall x y, leb x y = true \/ leb y x = true.
Hypothesis leb_trans : forall x y z, leb x y = true -> leb y z = true -> leb x z = true.

Lemma list_sum_seq_exact (a n : nat) :
  2 * list_sum (seq a n) + n = n * (2 * a + n).
Proof.
  revert a. induction n as [|n IH]; intro a; cbn [seq list_sum fold_right]; [lia|].
  fold (list_sum (seq (S a) n)). specialize (IH (S a)).
  set (X := list_sum (seq (S a) n)) in *. clearbody X. nia.
Qed.

(** Whatever is below or tied with [v] is below any [w] above [v]. *)
Lemma count_lt_above (v w : V) (present : list V) :
  ltv leb v w = true ->
  count_lt leb v present + count_eq leb v present <= count_lt leb w present.
Proof.
  unfold ltv. intro H. apply andb_prop in H. destruct H as [Hvw Hwv].
  apply negb_true_iff in Hwv.
  unfold count_lt, count_eq, ltv, eqv.
  induction present as [|x l IH]; cbn [filter List.length]; [lia|].
  destruct (leb x v) eqn:Exv.
  - assert (Exw : leb x w = true) by exact (leb_trans _ _ _ Exv Hvw).
    assert (Ewx : leb w x = false).
    { destruct (leb w x) eqn:E; [|reflexivity].
      rewrite (leb_trans _ _ _ E Exv) in Hwv. discriminate. }
    rewrite Exw, Ewx. destruct (leb v x); cbn [andb negb List.length]; lia.
  - cbn [andb]. destruct (leb x w && negb (leb w x)); cbn [List.length]; lia.
Qed.

Lemma Qnat_pos (n : nat) : 1 <= n -> (0 < Qnat n)%Q.
Proof. intro H. unfold Qnat. rewrite <- (Zlt_Qlt 0). lia. Qed.

Lemma Qnat_nonzero (n : nat) : 1 <= n -> ~ (Qnat n == 0)%Q.
Proof. intros H H0. apply Qnat_pos in H. rewrite H0 in H. discriminate. Qed.

Lemma Qnat_le (n m : nat) : n <= m -> (Qnat n <= Qnat m)%Q.
Proof. intro H. unfold Qnat. rewrite <- Zle_Qle. lia. Qed.

Lemma Qnat_lt (n m : nat) : n < m -> (Qnat n < Qnat m)%Q.
Proof. intro H. unfold Qnat. rewrite <- Zlt_Qlt. lia. Qed.

Lemma Qnat_mult (n m : nat) : (Qnat (n * m) == Qnat n * Qnat m)%Q.
Proof. unfold Qnat. now rewrite Nat2Z.inj_mul, inject_Z_mult. Qed.

(** The percentile of a ranked value is at least one over the number of
    ranked values. *)
Lemma percentile_lower (present : list V) (v : V) :
  In v present ->
  (1 / Qnat (List.length present) <= percentile leb present v)%Q.
Proof.
  intro Hin. unfold percentile, average_position, tied_positions.
  rewrite length_seq, Qred_correct.
  pose proof (count_eq_pos V leb leb_total v present Hin) as He.
  pose proof (counts_le_length V leb v present) as Hl.
  destruct (list_sum_seq_bounds (1 + count_lt leb v present) (count_eq leb v present))
    as [Hs _].
  set (s := list_sum _) in *. set (e := count_eq leb v present) in *.
  set (k := count_lt leb v present) in *. set (n := List.length present) in *.
  assert (Hn : (0 < Qnat n)%Q) by (apply Qnat_pos; lia).
  assert (He' : (0 < Qnat e)%Q) by (apply Qnat_pos; lia).
  apply Qle_shift_div_l; [exact Hn|].
  assert (E : (1 / Qnat n * Qnat n == 1)%Q).
  { field. apply Qnat_nonzero. lia. }
  rewrite E. apply Qle_shift_div_l; [exact He'|].
  rewrite Qmult_1_l. apply Qnat_le. nia.
Qed.

(** The ranking preserves the strict order of the values. *)
Lemma percentile_lt (present : list V) (v w : V) :
  In v present -> In w present -> ltv leb v w = true ->
  (percentile leb present v < percentile leb present w)%Q.
Proof.
  intros Hv Hw Hlt. unfold percentile, average_position, tied_positions.
  rewrite !length_seq. apply Qred_lt.
  pose proof (count_eq_pos V leb leb_total v present Hv) as Hev.
  pose proof (count_eq_pos V leb leb_total w present Hw) as Hew.
  pose proof (counts_le_length V leb w present) as Hl.
  pose proof (count_lt_above v w present Hlt) as Hab.
  destruct (list_sum_seq_bounds (1 + count_lt leb v present) (count_eq leb v present))
    as [_ Hsv].
  destruct (list_sum_seq_bounds (1 + count_lt leb w present) (count_eq leb w present))
    as [Hsw _].
  set (sv := list_sum (seq (1 + count_lt leb v present) _)) in *.
  set (sw := list_sum (seq (1 + count_lt leb w present) _)) in *.
  set (ev := count_eq leb v present) in *. set (ew := count_eq leb w present) in *.
  set (kv := count_lt leb v present) in *. set (kw := count_lt leb w present) in *.
  set (n := List.length present) in *.
  assert (Hn : (0 < Qnat n)%Q) by (apply Qnat_pos; lia).
  assert (Hev' : (0 < Qnat ev)%Q) by (apply Qnat_pos; lia).
  assert (Hew' : (0 < Qnat ew)%Q) by (apply Qnat_pos; lia).
  assert (Hcross : sv * ew < sw * ev) by nia.
  apply Qmult_lt_compat_r; [now apply Qinv_lt_0_compat|].
  apply Qlt_shift_div_r; [exact Hev'|].
  assert (E : (Qnat sw / Qnat ew * Qnat ev == Qnat sw * Qnat ev / Qnat ew)%Q).
  { field. apply Qnat_nonzero. lia. }
  rewrite E. apply Qlt_shift_div_l; [exact Hew'|].
  rewrite <- !Qnat_mult. now apply Qnat_lt.
Qed.

(** Percentile 1 belongs to a value that is alone at the top. *)
Lemma percentile_one (present : list V) (v : V) :
  In v present ->
  (percentile leb present v = 1%Q
   <-> count_eq leb v present = 1
       /\ count_lt leb v present + 1 = List.length present).
Proof.
  intro Hin. unfold percentile, average_position, tied_positions.
  rewrite length_seq.
  pose proof (count_eq_pos V leb leb_total v present Hin) as He.
  pose proof (counts_le_length V leb v present) as Hl.
  pose proof (list_sum_seq_exact (1 + count_lt leb v present) (count_eq leb v present))
    as Hs.
  set (s := list_sum _) in *. set (e := count_eq leb v present) in *.
  set (k := count_lt leb v present) in *. set (n := List.length present) in *.
  assert (Hn : (0 < Qnat n)%Q) by (apply Qnat_pos; lia).
  assert (He' : (0 < Qnat e)%Q) by (apply Qnat_pos; lia).
  assert (Hq : (Qnat s / Qnat e / Qnat n == 1)%Q <-> s = e * n).
  { split.
    - intro H.
      assert (H' : (Qnat s == Qnat (e * n))%Q).
      { rewrite Qnat_mult.
        assert (E : (Qnat s == Qnat s / Qnat e / Qnat n * (Qnat e * Qnat n))%Q).
        { field. split; apply Qnat_nonzero; lia. }
        rewrite E, H. ring. }
      unfold Qnat, Qeq in H'. cbn [Qnum Qden inject_Z] in H'.
      rewrite !Z.mul_1_r in H'. now apply Nat2Z.inj in H'.
    - intros ->. rewrite Qnat_mult. field. split; apply Qnat_nonzero; lia. }
  split.
  - intro H. assert (H1 : (Qnat s / Qnat e / Qnat n == 1)%Q).
    { rewrite <- (Qred_correct (_ / _ / _)), H. reflexivity. }
    apply Hq in H1. split; nia.
  - intros [H1 H2]. change 1%Q with (Qred 1). apply Qred_complete, Hq. nia.
Qed.

(** Percentiles depend on the values ranked, not on their order. *)
Lemma percentile_perm (present present' : list V) (v : V) :
  Permutation present present' ->
  percentile leb present v = percentile leb present' v.
Proof.
  intro H. unfold percentile, tied_positions, count_lt, count_eq.
  now rewrite !(filter_length_perm V _ _ _ H), (Permutation_length H).
Qed.

End RankOrder.

Lemma ltv_Qlt (v w : Q) : ltv Qle_bool v w = true <-> (v < w)%Q.
Proof.
  unfold ltv. rewrite andb_true_iff, negb_true_iff, Qle_bool_iff. split.
  - intros [_ H]. apply Qnot_le_lt. intro Hle. apply Qle_bool_iff in Hle. congruence.
  - intro H. split; [now apply Qlt_le_weak|].
    destruct (Qle_bool w v) eqn:E; [|reflexivity].
    apply Qle_bool_iff in E. exfalso. exact (Qlt_not_le _ _ H E).
Qed.

Lemma dropna_In {V : Type} (cells : list (option V)) (v : V) :
  In (Some v) cells <-> In v (dropna cells).
Proof.
  unfold dropna. rewrite in_flat_map. split.
  - intro H. exists (Some v). split; [exact H | now left].
  - intros [[x|] [Hin Hx]]; [|destruct Hx].
    destruct Hx as [-> | []]. exact Hin.
Qed.

Lemma dropna_app {V : Type} (l1 l2 : list (option V)) :
  dropna (l1 ++ l2) = (dropna l1 ++ dropna l2)%list.
Proof. unfold dropna. apply flat_map_app. Qed.

Lemma rank_pct_nth (cells : list (option Q)) (i : nat) (v : Q) :
  nth_error cells i = Some (Some v) ->
  nth_error (rank_pct Qle_bool cells) i
  = Some (Some (percentile Qle_bool (dropna cells) v)).
Proof.
  intro H. rewrite (rank_pct_percentile Q Qle_bool Qle_bool_total Qle_bool_trans).
  unfold percentile_column. now rewrite nth_error_map, H.
Qed.

(** X10.  No percentile is zero: a ranked value gets at least one over the
    number of non-missing values of its column, so the percentiles lie in
    the half-open interval from 0 (excluded) to 1. *)
Theorem rank_pct_positive :
  forall cells : list (option Q),
    Forall (fun c =>
              match c with
              | Some q => (0 < q)%Q /\ (1 / Qnat (List.length (dropna cells)) <= q)%Q
              | None => True
              end)
           (rank_pct Qle_bool cells).
Proof.
  intro cells. rewrite (rank_pct_percentile Q Qle_bool Qle_bool_total Qle_bool_trans).
  unfold percentile_column. apply Forall_forall. intros c Hc.
  apply in_map_iff in Hc. destruct Hc as [[v|] [<- Hin]]; cbn; [|exact I].
  apply dropna_In in Hin.
  pose proof (percentile_lower Q Qle_bool Qle_bool_total (dropna cells) v Hin) as Hlow.
  split; [|exact Hlow].
  eapply Qlt_le_trans; [|exact Hlow].
  apply Qlt_shift_div_l.
  - apply Qnat_pos. destruct (dropna cells); [destruct Hin | cbn; lia].
  - rewrite Qmult_0_l. reflexivity.
Qed.

(** X11.  The ranking keeps the order of the values: of two rows of a
    column, the one with the strictly larger value has the strictly larger
    percentile. *)
Theorem rank_pct_monotone :
  forall (cells : list (option Q)) (i j : nat) (v w : Q),
    nth_error cells i = Some (Some v) ->
    nth_error cells j = Some (Some w) ->
    (v < w)%Q ->
    exists p q : Q,
      nth_error (rank_pct Qle_bool cells) i = Some (Some p)
      /\ nth_error (rank_pct Qle_bool cells) j = Some (Some q)
      /\ (p < q)%Q.
Proof.
  intros cells i j v w Hi Hj Hlt.
  exists (percentile Qle_bool (dropna cells) v), (percentile Qle_bool (dropna cells) w).
  split; [now apply rank_pct_nth|]. split; [now apply rank_pct_nth|].
  apply (percentile_lt Q Qle_bool Qle_bool_total Qle_bool_trans).
  - apply dropna_In. exact (nth_error_In _ _ Hi).
  - apply dropna_In. exact (nth_error_In _ _ Hj).
  - now apply ltv_Qlt.
Qed.

Lemma rank_pct_monotone_witness :
  exists p q : Q,
    nth_error (rank_pct Qle_bool [Some (1 # 10); None; Some (1 # 5); Some (1 # 20)]%Q) 3
    = Some (Some p)
    /\ nth_error (rank_pct Qle_bool [Some (1 # 10); None; Some (1 # 5); Some (1 # 20)]%Q) 0
       = Some (Some q)
    /\ (p < q)%Q.
Proof.
  apply (rank_pct_monotone [Some (1 # 10); None; Some (1 # 5); Some (1 # 20)]%Q
                           3 0 (1 # 20)%Q (1 # 10)%Q); reflexivity.
Defined.

Lemma combine_map_self {X Y : Type} (f : X -> Y) (l : list X) :
  combine l (map f l) = map (fun x => (x, f x)) l.
Proof. induction l as [|x l IH]; cbn; [reflexivity | now rewrite IH]. Qed.

(** X12.  The percentiles do not depend on the order of the rows:
    permuting a column permutes its (value, percentile) pairs and changes
    none of them. *)
Theorem rank_pct_row_order :
  forall cells cells' : list (option Q),
    Permutation cells cells' ->
    Permutation (combine cells (rank_pct Qle_bool cells))
                (combine cells' (rank_pct Qle_bool cells')).
Proof.
  intros cells cells' H.
  rewrite !(rank_pct_percentile Q Qle_bool Qle_bool_total Qle_bool_trans).
  unfold percentile_column. rewrite !combine_map_self.
  assert (Hp : Permutation (dropna cells) (dropna cells')).
  { unfold dropna. now apply Permutation_flat_map. }
  rewrite (map_ext
             (fun x => (x, option_map (percentile Qle_bool (dropna cells)) x))
             (fun x => (x, option_map (percentile Qle_bool (dropna cells')) x))).
  - now apply Permutation_map.
  - intros [v|]; cbn [option_map]; [|reflexivity].
    now rewrite (percentile_perm Q Qle_bool _ _ v Hp).
Qed.

Lemma rank_pct_row_order_witness :
  Permutation
    (combine [Some (1 # 10); None; Some (1 # 5)]%Q
             (rank_pct Qle_bool [Some (1 # 10); None; Some (1 # 5)]%Q))
    (combine [None; Some (1 # 10); Some (1 # 5)]%Q
             (rank_pct Qle_bool [None; Some (1 # 10); Some (1 # 5)]%Q)).
Proof.
  apply rank_pct_row_order. apply perm_swap.
Defined.

Lemma filter_all {X : Type} (f : X -> bool) (l : list X) :
  List.length (filter f l) = List.length l <-> Forall (fun x => f x = true) l.
Proof.
  induction l as [|x l IH]; cbn; [split; [constructor | reflexivity]|].
  pose proof (filter_length_le f l) as Hle.
  destruct (f x) eqn:E; cbn.
  - split.
    + intro H. constructor; [exact E | apply IH; lia].
    + intro H. inversion H; subst. apply IH in H3. lia.
  - split; [lia|]. intro H. inversion H; congruence.
Qed.

Lemma all_below_filter (v : Q) (l : list Q) :
  Forall (fun w => (w < v)%Q) l
  <-> List.length (filter (fun x => ltv Qle_bool x v) l) = List.length l.
Proof.
  rewrite filter_all, !Forall_forall. split; intros H x Hx.
  - apply ltv_Qlt. now apply H.
  - apply ltv_Qlt. now apply H.
Qed.

(** X13.  A row has percentile 1 exactly when every other non-missing
    value of its column is strictly smaller; a maximum that is tied does
    not reach 1. *)
Theorem rank_pct_top :
  forall (above below : list (option Q)) (v : Q),
    nth_error (rank_pct Qle_bool (above ++ Some v :: below)) (List.length above)
    = Some (Some 1%Q)
    <-> Forall (fun w => (w < v)%Q) (dropna above ++ dropna below).
Proof.
  intros above below v.
  assert (Hnth : nth_error (above ++ Some v :: below) (List.length above) = Some (Some v)).
  { rewrite nth_error_app2 by lia. now rewrite Nat.sub_diag. }
  rewrite (rank_pct_nth _ _ _ Hnth).
  assert (Hin : In v (dropna (above ++ Some v :: below))).
  { apply dropna_In. exact (nth_error_In _ _ Hnth). }
  assert (Hone := percentile_one Q Qle_bool Qle_bool_total _ v Hin).
  assert (Hsome : forall q : Q, Some (Some q) = Some (Some 1%Q) <-> q = 1%Q).
  { intro q. split; [intro H; now inversion H | now intros ->]. }
  rewrite Hsome, Hone. clear Hsome Hone Hin Hnth.
  rewrite dropna_app. change (dropna (Some v :: below)) with (v :: dropna below).
  unfold count_eq, count_lt. rewrite !filter_app, !length_app. cbn [filter List.length].
  assert (Hvv : eqv Qle_bool v v = true) by (apply eqv_Qeq; reflexivity).
  assert (Hnlt : ltv Qle_bool v v = false).
  { unfold ltv. unfold eqv in Hvv. apply andb_prop in Hvv. destruct Hvv as [H _].
    now rewrite H. }
  rewrite Hvv, Hnlt. cbn [List.length].
  pose proof (counts_le_length Q Qle_bool v (dropna above)) as Ha.
  pose proof (counts_le_length Q Qle_bool v (dropna below)) as Hb.
  unfold count_lt, count_eq in Ha, Hb.
  rewrite Forall_app, !all_below_filter. lia.
Qed.

Lemma rank_pct_top_witness :
  nth_error (rank_pct Qle_bool
               ([Some (1 # 10)%Q] ++ Some (1 # 5)%Q :: [None; Some (1 # 20)%Q])%list) 1
  = Some (Some 1%Q).
Proof.
  apply (rank_pct_top [Some (1 # 10)%Q] [None; Some (1 # 20)%Q] (1 # 5)%Q).
  repeat constructor.
Defined.

(* ================================================================== *)
(** * Further properties of [momentum_analysis] *)
(* ================================================================== *)

Lemma labelled_labels (df : DataFrame) (name : string) :
  Forall (fun c => fst c = name) (labelled df name).
Proof.
  apply Forall_forall. intros c Hc. apply filter_In in Hc.
  now apply String.eqb_eq.
Qed.

Lemma getitem_absent (n : nat) (cols : list (string * column)) (name : string) :
  ~ In name (map fst cols) -> getitem (mk_frame n cols) name = Raise (KeyError name).
Proof.
  intro H. unfold getitem.
  destruct (labelled (mk_frame n cols) name) as [|c l] eqn:E; [reflexivity|].
  assert (Hin : In c (labelled (mk_frame n cols) name)) by (rewrite E; now left).
  apply filter_In in Hin. destruct Hin as [Hin Heq]. apply String.eqb_eq in Heq.
  exfalso. apply H. rewrite <- Heq. now apply in_map.
Qed.

(** The frame returned when each of the five labels names one column,
    whatever the dtypes. *)
Lemma momentum_analysis_frame (words : Wording) (stats_df : DataFrame)
      (c0 c1 c3 c6 cy : column) :
  getitem stats_df "symbol" = Ok (Column c0) ->
  getitem stats_df "month1ChangePercent" = Ok (Column c1) ->
  getitem stats_df "month3ChangePercent" = Ok (Column c3) ->
  getitem stats_df "month6ChangePercent" = Ok (Column c6) ->
  getitem stats_df "year1ChangePercent" = Ok (Column cy) ->
  momentum_analysis words stats_df
  = Ok (mk_frame (nrows stats_df)
          [("symbol", c0);
           ("month1ChangePercent", c1);
           ("month3ChangePercent", c3);
           ("month6ChangePercent", c6);
           ("year1ChangePercent", cy);
           ("month1ChangePercent_tile", ColNum (rank_cells c1));
           ("month3ChangePercent_tile", ColNum (rank_cells c3));
           ("month6ChangePercent_tile", ColNum (rank_cells c6));
           ("year1ChangePercent_tile", ColNum (rank_cells cy));
           ("avgPercentiles",
            ColNum (map (fun i => nanmean [nth i (rank_cells c1) None;
                                           nth i (rank_cells c3) None;
                                           nth i (rank_cells c6) None;
                                           nth i (rank_cells cy) None])
                        (seq 0 (nrows stats_df))))]).
Proof.
  intros H0 H1 H3 H6 Hy.
  unfold momentum_analysis.
  rewrite (select_five words stats_df _ _ _ _ _ H0 H1 H3 H6 Hy).
  destruct c1, c3, c6, cy; reflexivity.
Qed.

Lemma In_firstn {X : Type} (n : nat) (l : list X) (x : X) : In x (firstn n l) -> In x l.
Proof.
  revert l. induction n as [|n IH]; intros [|y l] H; cbn in *; try tauto.
  destruct H as [-> | H]; [now left | right; now apply IH].
Qed.

Lemma In_skipn {X : Type} (n : nat) (l : list X) (x : X) : In x (skipn n l) -> In x l.
Proof.
  revert l. induction n as [|n IH]; intros [|y l] H; cbn in *; try tauto.
  right. now apply IH.
Qed.

Lemma unique_In (names : list string) (name : string) :
  In name (unique names) <-> In name names.
Proof.
  induction names as [|a l IH]; cbn; [tauto|].
  rewrite filter_In, IH, negb_true_iff, String.eqb_neq.
  destruct (String.eqb_spec name a) as [-> | Hne]; split; intro H; tauto.
Qed.

(** The absent labels are those asked for that no column carries. *)
Lemma absent_In (df : DataFrame) (names : list string) (name : string) :
  In name (absent df names)
  <-> In name names /\ getitem df name = Raise (KeyError name).
Proof.
  unfold absent, getitem. rewrite unique_In, filter_In.
  destruct (labelled df name) as [|c [|c' l]]; split; intros [H1 H2];
    (split; [exact H1|]); try reflexivity; discriminate.
Qed.

Lemma filter_labelled (df : DataFrame) (n' name : string) :
  filter (fun c => String.eqb (fst c) name) (labelled df n')
  = if String.eqb n' name then labelled df n' else [].
Proof.
  pose proof (labelled_labels df n') as H.
  induction H as [|c l Hc _ IH]; cbn; [now destruct (String.eqb n' name)|].
  rewrite Hc, IH. now destruct (String.eqb n' name).
Qed.

Lemma labelled_select (n : nat) (df : DataFrame) (names : list string) (name : string) :
  labelled (mk_frame n (flat_map (labelled df) names)) name
  = flat_map (fun n' => if String.eqb n' name then labelled df n' else []) names.
Proof.
  unfold labelled at 1. cbn [columns].
  induction names as [|a l IH]; cbn [flat_map filter]; [reflexivity|].
  now rewrite filter_app, filter_labelled, IH.
Qed.

Lemma labelled_setitem_other (mom : DataFrame) (name name' : string) (col : column) :
  name <> name' -> labelled (setitem mom name' col) name = labelled mom name.
Proof.
  intro Hne. unfold labelled, setitem. cbn [columns].
  destruct (has_label (columns mom) name').
  - induction (columns mom) as [|c l IH]; cbn [map filter]; [reflexivity|].
    destruct (String.eqb_spec (fst c) name') as [E | E]; cbn [fst].
    + rewrite E. rewrite (proj2 (String.eqb_neq name' name)) by congruence. exact IH.
    + now rewrite IH.
  - rewrite filter_app. cbn [filter fst].
    rewrite (proj2 (String.eqb_neq name' name)) by congruence. apply app_nil_r.
Qed.

Lemma five_not_tile (name t : string) :
  In name ("symbol" :: change_columns) -> In t ("symbol" :: change_columns) ->
  name <> t ++ "_tile".
Proof.
  cbn. intros Hn Ht.
  repeat (destruct Hn as [<- | Hn]; [repeat (destruct Ht as [<- | Ht]; [discriminate|]);
                                     destruct Ht|]).
  destruct Hn.
Qed.

(** The loop over the labels, as long as the five labels of the frame at
    hand name the columns they name in the input: it stops with
    [ValueError] at the first label that names several columns. *)
Lemma tiles_loop (words : Wording) (df : DataFrame) :
  (forall name, In name ("symbol" :: change_columns) -> labelled df name <> []) ->
  forall (times : list string) (mom : DataFrame),
    (forall t, In t times -> In t ("symbol" :: change_columns)) ->
    (forall name, In name ("symbol" :: change_columns) ->
                  labelled mom name = labelled df name) ->
    (exists t, In t times /\ 2 <= List.length (labelled df t)) ->
    exists t,
      In t ("symbol" :: change_columns)
      /\ 2 <= List.length (labelled df t)
      /\ for_each (add_tile words) times mom
         = Raise (ValueError (cannot_set_frame words (t ++ "_tile")
                                               (List.length (labelled df t)))).
Proof.
  intros Hthere times. induction times as [|t times IH]; intros mom Hin Hinv Hdup.
  - destruct Hdup as [t [[] _]].
  - assert (Ht : In t ("symbol" :: change_columns)) by (apply Hin; now left).
    cbn [for_each]. unfold add_tile at 1, getitem. rewrite (Hinv t Ht).
    destruct (labelled df t) as [|c [|c' l]] eqn:E.
    + now destruct (Hthere t Ht).
    + cbn [rbind].
      apply IH.
      * intros t' Ht'. apply Hin. now right.
      * intros name Hname. rewrite labelled_setitem_other; [now apply Hinv|].
        now apply five_not_tile.
      * destruct Hdup as [t' [[<- | Ht'] Hlen]]; [|now exists t'].
        rewrite E in Hlen. cbn in Hlen. lia.
    + cbn [rbind]. exists t. rewrite E. split; [exact Ht|]. split; [cbn; lia|].
      now rewrite length_map.
Qed.

(** X14.  [momentum_analysis] has three outcomes.  When some of the five
    labels [symbol], [month1ChangePercent], [month3ChangePercent],
    [month6ChangePercent], [year1ChangePercent] are absent, it raises one
    [KeyError], whose message pandas makes from the five labels and all the
    absent ones.  When all are there and one of them names several
    columns, the assignment of a rank to a [_tile] column raises
    [ValueError].  When each names one column, a frame is returned. *)
Theorem momentum_analysis_outcomes :
  forall (words : Wording) (stats_df : DataFrame),
    (forall name,
        In name (absent stats_df ("symbol" :: change_columns))
        <-> In name ("symbol" :: change_columns)
            /\ getitem stats_df name = Raise (KeyError name))
    /\ ((absent stats_df ("symbol" :: change_columns) <> []
         /\ momentum_analysis words stats_df
            = Raise (KeyError (not_in_index words ("symbol" :: change_columns)
                                            (absent stats_df ("symbol" :: change_columns)))))
        \/ (absent stats_df ("symbol" :: change_columns) = []
            /\ exists name cols,
                In name ("symbol" :: change_columns)
                /\ getitem stats_df name = Ok (SubFrame cols)
                /\ momentum_analysis words stats_df
                   = Raise (ValueError (cannot_set_frame words (name ++ "_tile")
                                                         (List.length cols))))
        \/ ((forall name, In name ("symbol" :: change_columns) ->
                          exists c, getitem stats_df name = Ok (Column c))
            /\ exists mom_df, momentum_analysis words stats_df = Ok mom_df)).
Proof.
  intros words stats_df. split; [intro name; apply absent_In|].
  destruct (absent stats_df ("symbol" :: change_columns)) as [|a missing] eqn:Ea.
  2: { left. split; [discriminate|]. unfold momentum_analysis, select. now rewrite Ea. }
  right.
  assert (Hthere : forall name, In name ("symbol" :: change_columns) ->
                                labelled stats_df name <> []).
  { intros name Hname Hnone.
    assert (Hin : In name (absent stats_df ("symbol" :: change_columns))).
    { apply absent_In. split; [exact Hname|]. unfold getitem. now rewrite Hnone. }
    rewrite Ea in Hin. destruct Hin. }
  set (mom0 := mk_frame (nrows stats_df)
                        (flat_map (labelled stats_df) ("symbol" :: change_columns))).
  assert (Hsel : select words stats_df ("symbol" :: change_columns) = Ok mom0).
  { unfold select. now rewrite Ea. }
  assert (Hinv : forall name, In name ("symbol" :: change_columns) ->
                              labelled mom0 name = labelled stats_df name).
  { intros name Hname. subst mom0. rewrite labelled_select. cbn in Hname.
    destruct Hname as [<- | [<- | [<- | [<- | [<- | []]]]]]; cbn;
      now rewrite ?app_nil_r. }
  assert (Htimes : forall t, In t (iloc_columns mom0 1 5) ->
                             In t ("symbol" :: change_columns)).
  { intros t Ht. unfold iloc_columns in Ht. apply in_map_iff in Ht.
    destruct Ht as [c [<- Hc]]. apply In_firstn, In_skipn in Hc.
    subst mom0. cbn [columns] in Hc. apply in_flat_map in Hc.
    destruct Hc as [name [Hname Hc]]. apply filter_In in Hc. destruct Hc as [_ Hc].
    apply String.eqb_eq in Hc. now rewrite Hc. }
  (* is some label carried by several columns? *)
  assert (Hcases :
            (exists t, In t (iloc_columns mom0 1 5) /\ 2 <= List.length (labelled stats_df t))
            \/ (forall name, In name ("symbol" :: change_columns) ->
                             exists c, getitem stats_df name = Ok (Column c))).
  { pose proof (labelled_labels stats_df "symbol") as L0.
    pose proof (labelled_labels stats_df "month1ChangePercent") as L1.
    pose proof (labelled_labels stats_df "month3ChangePercent") as L3.
    pose proof (labelled_labels stats_df "month6ChangePercent") as L6.
    pose proof (labelled_labels stats_df "year1ChangePercent") as Ly.
    assert (H0 := Hthere "symbol" ltac:(cbn; tauto)).
    assert (H1 := Hthere "month1ChangePercent" ltac:(cbn; tauto)).
    assert (H3 := Hthere "month3ChangePercent" ltac:(cbn; tauto)).
    assert (H6 := Hthere "month6ChangePercent" ltac:(cbn; tauto)).
    assert (Hy := Hthere "year1ChangePercent" ltac:(cbn; tauto)).
    unfold iloc_columns. subst mom0. cbn [columns flat_map change_columns].
    destruct (labelled stats_df "symbol") as [|x0 [|x0' r0]] eqn:E0; [congruence| |].
    2: { left. exists "symbol". split; [|rewrite E0; cbn; lia].
         inversion L0 as [|? ? _ L0']; subst. inversion L0' as [|? ? Hx _]; subst.
         cbn. left. exact Hx. }
    destruct (labelled stats_df "month1ChangePercent") as [|x1 [|x1' r1]] eqn:E1;
      [congruence| |].
    2: { left. exists "month1ChangePercent". split; [|rewrite E1; cbn; lia].
         inversion L1 as [|? ? Hx _]; subst. cbn. left. exact Hx. }
    destruct (labelled stats_df "month3ChangePercent") as [|x2 [|x2' r2]] eqn:E3;
      [congruence| |].
    2: { left. exists "month3ChangePercent". split; [|rewrite E3; cbn; lia].
         inversion L3 as [|? ? Hx _]; subst. cbn. right. left. exact Hx. }
    destruct (labelled stats_df "month6ChangePercent") as [|x3 [|x3' r3]] eqn:E6;
      [congruence| |].
    2: { left. exists "month6ChangePercent". split; [|rewrite E6; cbn; lia].
         inversion L6 as [|? ? Hx _]; subst. cbn. right. right. left. exact Hx. }
    destruct (labelled stats_df "year1ChangePercent") as [|x4 [|x4' r4]] eqn:Ey;
      [congruence| |].
    2: { left. exists "year1ChangePercent". split; [|rewrite Ey; cbn; lia].
         inversion Ly as [|? ? Hx _]; subst. cbn. right. right. right. left. exact Hx. }
    right. intros name Hname. unfold getitem. cbn in Hname.
    destruct Hname as [<- | [<- | [<- | [<- | [<- | []]]]]];
      rewrite ?E0, ?E1, ?E3, ?E6, ?Ey; eauto. }
  destruct Hcases as [Hdup | Hone].
  - left. split; [reflexivity|].
    destruct (tiles_loop words stats_df Hthere _ mom0 Htimes Hinv Hdup)
      as [t [Ht [Hlen Hloop]]].
    exists t, (map snd (labelled stats_df t)). split; [exact Ht|]. split.
    + unfold getitem. destruct (labelled stats_df t) as [|c [|c' l]]; cbn in Hlen; try lia.
      reflexivity.
    + unfold momentum_analysis. rewrite Hsel. cbn [rbind]. rewrite Hloop.
      now rewrite length_map.
  - right. split; [exact Hone|].
    destruct (Hone "symbol" ltac:(cbn; tauto)) as [c0 H0].
    destruct (Hone "month1ChangePercent" ltac:(cbn; tauto)) as [c1 H1].
    destruct (Hone "month3ChangePercent" ltac:(cbn; tauto)) as [c3 H3].
    destruct (Hone "month6ChangePercent" ltac:(cbn; tauto)) as [c6 H6].
    destruct (Hone "year1ChangePercent" ltac:(cbn; tauto)) as [cy Hy].
    eexists. exact (momentum_analysis_frame words _ _ _ _ _ _ H0 H1 H3 H6 Hy).
Qed.

Lemma momentum_analysis_outcomes_witness :
  momentum_analysis plain_wording
                    (mk_frame 1 [("symbol", ColObj ["AAPL"]);
                                 ("month1ChangePercent", ColNum [Some (1 # 10)%Q])])
  = Raise (KeyError "month3ChangePercent, month6ChangePercent, year1ChangePercent").
Proof.
  destruct (momentum_analysis_outcomes
              plain_wording
              (mk_frame 1 [("symbol", ColObj ["AAPL"]);
                           ("month1ChangePercent", ColNum [Some (1 # 10)%Q])]))
    as [_ [[_ Hrun] | [[Hnone _] | [Hall _]]]].
  - rewrite Hrun. reflexivity.
  - vm_compute in Hnone. discriminate Hnone.
  - assert (Hin : In "month3ChangePercent" ("symbol" :: change_columns)).
    { right. right. now left. }
    destruct (Hall _ Hin) as [c Hc]. vm_compute in Hc. discriminate Hc.
Defined.

(** X15.  When each of the five labels names one column of the input, the
    frame returned has the rows of the input, and ten columns in
    this order: [symbol], the four change columns, their four [_tile]
    columns, [avgPercentiles].  The first five are those of the input,
    unchanged (nothing is sorted); every other column of the input is
    dropped. *)
Theorem momentum_analysis_shape :
  forall (words : Wording) (stats_df : DataFrame) (c0 c1 c3 c6 cy : column),
    getitem stats_df "symbol" = Ok (Column c0) ->
    getitem stats_df "month1ChangePercent" = Ok (Column c1) ->
    getitem stats_df "month3ChangePercent" = Ok (Column c3) ->
    getitem stats_df "month6ChangePercent" = Ok (Column c6) ->
    getitem stats_df "year1ChangePercent" = Ok (Column cy) ->
    exists mom_df : DataFrame,
      momentum_analysis words stats_df = Ok mom_df
      /\ nrows mom_df = nrows stats_df
      /\ map fst (columns mom_df)
         = ["symbol"; "month1ChangePercent"; "month3ChangePercent"; "month6ChangePercent";
            "year1ChangePercent"; "month1ChangePercent_tile"; "month3ChangePercent_tile";
            "month6ChangePercent_tile"; "year1ChangePercent_tile"; "avgPercentiles"]
      /\ (forall name, In name ("symbol" :: change_columns) ->
                       getitem mom_df name = getitem stats_df name)
      /\ (forall name, ~ In name momentum_columns ->
                       getitem mom_df name = Raise (KeyError name)).
Proof.
  intros words stats_df c0 c1 c3 c6 cy H0 H1 H3 H6 Hy.
  eexists. split; [exact (momentum_analysis_frame words _ _ _ _ _ _ H0 H1 H3 H6 Hy)|].
  split; [reflexivity|]. split; [reflexivity|]. split.
  - intros name Hin. cbn in Hin.
    destruct Hin as [<- | [<- | [<- | [<- | [<- | []]]]]]; symmetry; assumption.
  - intros name Hout. now apply getitem_absent.
Qed.

Lemma momentum_analysis_shape_witness :
  exists mom_df : DataFrame,
    momentum_analysis plain_wording example_stats = Ok mom_df
    /\ nrows mom_df = 4
    /\ getitem mom_df "peRatio" = Raise (KeyError "peRatio").
Proof.
  destruct (momentum_analysis_shape plain_wording example_stats _ _ _ _ _
              eq_refl eq_refl eq_refl eq_refl eq_refl)
    as [mom_df [Hrun [Hrows [_ [_ Hdrop]]]]].
  exists mom_df. split; [exact Hrun|]. split; [exact Hrows|].
  apply Hdrop. cbn. intro H.
  repeat (destruct H as [H | H]; [discriminate|]). exact H.
Defined.

Lemma rank_pct_present (cells : list (option Q)) (i : nat) (v : Q) :
  nth i cells None = Some v ->
  nth i (rank_pct Qle_bool cells) None = Some (percentile Qle_bool (dropna cells) v)
  /\ In v (dropna cells).
Proof.
  intro H.
  assert (Hi : i < List.length cells).
  { destruct (Nat.lt_ge_cases i (List.length cells)) as [Hi | Hi]; [exact Hi|].
    rewrite nth_overflow in H by exact Hi. discriminate. }
  split.
  - rewrite (rank_pct_percentile Q Qle_bool Qle_bool_total Qle_bool_trans).
    unfold percentile_column. rewrite (nth_map_in _ _ _ _ None Hi), H. reflexivity.
  - apply dropna_In. rewrite <- H. now apply nth_In.
Qed.

(** A percentile cell is missing exactly when its source is, and lies in
    the half-open unit interval otherwise. *)
Lemma rank_pct_cell (cells : list (option Q)) (i : nat) :
  (nth i (rank_pct Qle_bool cells) None = None <-> nth i cells None = None)
  /\ (forall q, nth i (rank_pct Qle_bool cells) None = Some q -> (0 < q <= 1)%Q).
Proof.
  destruct (nth i cells None) as [v|] eqn:E.
  - destruct (rank_pct_present cells i v E) as [Hp Hin]. rewrite Hp. split.
    + split; discriminate.
    + intros q Hq. inversion Hq; subst q. split.
      * eapply Qlt_le_trans;
          [|exact (percentile_lower Q Qle_bool Qle_bool_total (dropna cells) v Hin)].
        apply Qlt_shift_div_l; [|rewrite Qmult_0_l; reflexivity].
        apply Qnat_pos. destruct (dropna cells); [destruct Hin | cbn; lia].
      * apply (percentile_unit Q Qle_bool Qle_bool_total (dropna cells) v Hin).
  - rewrite (rank_pct_missing Qle_bool cells i E). split; [tauto | discriminate].
Qed.

Lemma Qnat_S (n : nat) : (Qnat (S n) == 1 + Qnat n)%Q.
Proof.
  unfold Qnat. rewrite Nat2Z.inj_succ, <- Z.add_1_l, inject_Z_plus. reflexivity.
Qed.

Lemma Qsum_unit (values : list Q) :
  Forall (fun q => (0 < q <= 1)%Q) values ->
  (0 <= Qsum values <= Qnat (List.length values))%Q
  /\ (values <> [] -> (0 < Qsum values)%Q).
Proof.
  induction 1 as [|q l [Hq0 Hq1] _ [[IH0 IH1] _]]; cbn [Qsum fold_right List.length].
  - split; [split; apply Qle_refl | congruence].
  - fold (Qsum l). rewrite Qnat_S. split; [split|].
    + apply Qlt_le_weak in Hq0. rewrite <- (Qplus_0_l 0). now apply Qplus_le_compat.
    + now apply Qplus_le_compat.
    + intros _. rewrite <- (Qplus_0_l 0). now apply Qplus_lt_le_compat.
Qed.

(** The mean of available cells of the half-open unit interval lies in
    it, and is missing only when nothing is available. *)
Lemma mean_available_unit (cells : list (option Q)) :
  (forall q, In (Some q) cells -> (0 < q <= 1)%Q) ->
  (mean_available cells = None <-> Forall (fun c => c = None) cells)
  /\ (forall m, mean_available cells = Some m -> (0 < m <= 1)%Q).
Proof.
  intro Hcells. unfold mean_available, arithmetic_mean.
  assert (Hall : Forall (fun q => (0 < q <= 1)%Q) (dropna cells)).
  { apply Forall_forall. intros q Hq. apply Hcells. now apply dropna_In. }
  assert (Hnone : dropna cells = [] <-> Forall (fun c => c = None) cells).
  { clear. induction cells as [|[q|] l IH]; cbn.
    - split; [constructor | reflexivity].
    - split; [discriminate | intro H; inversion H; discriminate].
    - rewrite IH. split; [now constructor | intro H; now inversion H]. }
  destruct (dropna cells) as [|q l] eqn:E.
  - split; [split; [intros _; now apply Hnone | reflexivity] | discriminate].
  - split.
    + split; [discriminate|]. intro H. apply Hnone in H. discriminate.
    + intros m Hm.
      assert (Em : (m == Qsum (q :: l) / Qnat (List.length (q :: l)))%Q).
      { rewrite <- (Qred_correct (_ / _)).
        assert (Hm' : Qred (Qsum (q :: l) / Qnat (List.length (q :: l))) = m) by congruence.
        rewrite Hm'. reflexivity. }
      rewrite Em.
      destruct (Qsum_unit _ Hall) as [[_ Hhi] Hpos].
      assert (Hn : (0 < Qnat (List.length (q :: l)))%Q) by (apply Qnat_pos; cbn; lia).
      split.
      * apply Qlt_shift_div_l; [exact Hn|]. rewrite Qmult_0_l. now apply Hpos.
      * apply Qle_shift_div_r; [exact Hn|]. now rewrite Qmult_1_l.
Qed.

(** X16.  When each of the five labels names one column of the input, the
    change columns numeric, the average of a row is missing exactly when
    all four change values of the row are missing; otherwise it lies above
    0 and at most at 1. *)
Theorem momentum_average_defined :
  forall (words : Wording) (stats_df : DataFrame) (symbol : column)
         (m1 m3 m6 y1 : list (option Q)),
    getitem stats_df "symbol" = Ok (Column symbol) ->
    getitem stats_df "month1ChangePercent" = Ok (Column (ColNum m1)) ->
    getitem stats_df "month3ChangePercent" = Ok (Column (ColNum m3)) ->
    getitem stats_df "month6ChangePercent" = Ok (Column (ColNum m6)) ->
    getitem stats_df "year1ChangePercent" = Ok (Column (ColNum y1)) ->
    exists (mom_df : DataFrame) (avg : list (option Q)),
      momentum_analysis words stats_df = Ok mom_df
      /\ getitem mom_df "avgPercentiles" = Ok (Column (ColNum avg))
      /\ forall i : nat,
          i < nrows stats_df ->
          (nth i avg None = None
           <-> nth i m1 None = None /\ nth i m3 None = None
               /\ nth i m6 None = None /\ nth i y1 None = None)
          /\ (forall q, nth i avg None = Some q -> (0 < q <= 1)%Q).
Proof.
  intros words stats_df symbol m1 m3 m6 y1 Hs H1 H3 H6 Hy.
  eexists. eexists.
  split; [exact (momentum_analysis_frame words _ _ _ _ _ _ Hs H1 H3 H6 Hy)|].
  split; [reflexivity|].
  intros i Hi. cbn [rank_cells].
  rewrite (nth_map_in _ _ _ _ 0) by now rewrite length_seq.
  rewrite seq_nth by exact Hi. cbn [Nat.add]. rewrite nanmean_mean_available.
  destruct (rank_pct_cell m1 i) as [E1 B1]. destruct (rank_pct_cell m3 i) as [E3 B3].
  destruct (rank_pct_cell m6 i) as [E6 B6]. destruct (rank_pct_cell y1 i) as [Ey By].
  set (t1 := nth i (rank_pct Qle_bool m1) None) in *.
  set (t3 := nth i (rank_pct Qle_bool m3) None) in *.
  set (t6 := nth i (rank_pct Qle_bool m6) None) in *.
  set (ty := nth i (rank_pct Qle_bool y1) None) in *.
  destruct (mean_available_unit [t1; t3; t6; ty]) as [Hnone Hunit].
  { intros q [H | [H | [H | [H | []]]]]; [apply B1 | apply B3 | apply B6 | apply By];
      now rewrite H. }
  split; [|exact Hunit].
  rewrite Hnone, <- E1, <- E3, <- E6, <- Ey. split.
  - intro H. inversion H as [|? ? Ha H']; subst. inversion H' as [|? ? Hb H'']; subst.
    inversion H'' as [|? ? Hc H''']; subst. inversion H''' as [|? ? Hd _]; subst. tauto.
  - intros [Ha [Hb [Hc Hd]]]. repeat constructor; assumption.
Qed.

Lemma momentum_average_defined_witness :
  exists (mom_df : DataFrame) (avg : list (option Q)),
    momentum_analysis plain_wording example_stats = Ok mom_df
    /\ getitem mom_df "avgPercentiles" = Ok (Column (ColNum avg))
    /\ nth 1 avg None <> None.
Proof.
  destruct (momentum_average_defined plain_wording example_stats _ _ _ _ _
              eq_refl eq_refl eq_refl eq_refl eq_refl)
    as [mom_df [avg [Hrun [Havg Hrows]]]].
  exists mom_df, avg. split; [exact Hrun|]. split; [exact Havg|].
  assert (Hrow : 1 < nrows example_stats) by (cbn; lia).
  destruct (Hrows 1 Hrow) as [Hiff _].
  intro Hnone. apply Hiff in Hnone. destruct Hnone as [H _]. discriminate H.
Defined.

(* ================================================================== *)
(** * Properties of the calls that fetch and flatten *)
(* ================================================================== *)

(** X17.  [get_symbol_stats] and [get_advanced_symbol_stats] do not check
    what the fetcher returned: for more than 100 symbols the fetcher
    returns [None], and the call [data.json()] raises [AttributeError].
    One error record is logged and no request is made. *)
Theorem symbol_stats_over_limit :
  forall (http : string -> result Response) (json_of : Response -> result batch)
         (api_obj : IEXApi) (symbols : list value) (w : World),
    100 < List.length symbols ->
    let failed :=
      (Raise (AttributeError "'NoneType' object has no attribute 'json'") : result ObjFrame,
       mk_world
         (log w ++ [mk_log ERROR ("len(symbols) = " ++ nat_str (List.length symbols)
                                    ++ " > 100")%string None])%list
         (gets w)) in
    get_symbol_stats http json_of api_obj (PyList symbols) w = failed
    /\ get_advanced_symbol_stats http json_of api_obj (PyList symbols) w = failed.
Proof.
  intros http json_of api_obj symbols w Hlen. cbv zeta.
  unfold get_symbol_stats, get_advanced_symbol_stats, get_stats, get_advanced_stats, bind.
  rewrite !(fetch_stats_over http _ api_obj symbols w Hlen). split; reflexivity.
Qed.

Lemma symbol_stats_over_limit_witness :
  fst (get_symbol_stats always_up (fun _ => Ok []) sandbox
                        (PyList (repeat (PyStr "F") 101)) idle)
  = Raise (AttributeError "'NoneType' object has no attribute 'json'").
Proof.
  assert (Hlen : 100 < List.length (repeat (PyStr "F") 101)) by (cbn; lia).
  rewrite (proj1 (symbol_stats_over_limit always_up (fun _ => Ok []) sandbox
                                          (repeat (PyStr "F") 101) idle Hlen)).
  reflexivity.
Defined.

(** X18.  For at most 100 symbols, all strings, [get_symbol_stats] makes
    one request (datasets [stats,price]) and returns the flattening of the
    parsed body; an exception of the request, of the decoder or of the
    flattening is not handled and reaches the caller.  Likewise
    [get_advanced_symbol_stats], with dataset [advanced-stats]. *)
Theorem symbol_stats_within_limit :
  forall (http : string -> result Response) (json_of : Response -> result batch)
         (api_obj : IEXApi) (symbols : list string) (w : World),
    List.length symbols <= 100 ->
    (let url := with_token api_obj
                  (batch_url (base_url api_obj) (String.concat "," symbols) "stats,price") in
     get_symbol_stats http json_of api_obj (PyList (map PyStr symbols)) w
     = (r <~ http url ;; d <~ json_of r ;; flatten_response "stats" d,
        after_send http w url))
    /\ (let url := with_token api_obj
                     (batch_url (base_url api_obj) (String.concat "," symbols)
                                "advanced-stats") in
        get_advanced_symbol_stats http json_of api_obj (PyList (map PyStr symbols)) w
        = (r <~ http url ;; d <~ json_of r ;; flatten_response "advanced-stats" d,
           after_send http w url)).
Proof.
  intros http json_of api_obj symbols w Hlen. cbv zeta.
  assert (Hl : List.length (map PyStr symbols) <= 100) by now rewrite length_map.
  assert (Hrt : "stat" = "stat" \/ "stat" = "info") by now left.
  unfold get_symbol_stats, get_advanced_symbol_stats, get_stats, get_advanced_stats, bind.
  rewrite (fetch_stats_run http ["stats"; "price"] api_obj _ w w _ Hl
             (create_request_strs api_obj "stat" symbols ["stats"; "price"] w Hrt)).
  rewrite (fetch_stats_run http ["advanced-stats"] api_obj _ w w _ Hl
             (create_request_strs api_obj "stat" symbols ["advanced-stats"] w Hrt)).
  cbn [String.concat]. unfold fetched, lift, rbind, data_json.
  split.
  - destruct (http _) as [r|e]; [|reflexivity]. destruct (json_of r); reflexivity.
  - destruct (http _) as [r|e]; [|reflexivity]. destruct (json_of r); reflexivity.
Qed.

Lemma symbol_stats_within_limit_witness :
  fst (get_symbol_stats
         always_up
         (fun _ => Ok [("AAPL", [("stats", JObj [("peRatio", JNum (30 # 1))])]); ("TSLA", [])])
         sandbox (PyList (map PyStr ["AAPL"; "TSLA"])) idle)
  = Ok (mk_oframe
          [LStr "symbol"; LStr "peRatio"; LInt 0]
          [[(LStr "symbol", Val (JStr "AAPL")); (LStr "peRatio", Val (JNum (30 # 1)));
            (LInt 0, NaN)];
           [(LStr "symbol", Val (JStr "TSLA")); (LStr "peRatio", NaN); (LInt 0, NaN)]]).
Proof.
  assert (Hlen : List.length ["AAPL"; "TSLA"] <= 100) by (cbn; lia).
  rewrite (proj1 (symbol_stats_within_limit
                    always_up
                    (fun _ => Ok [("AAPL", [("stats", JObj [("peRatio", JNum (30 # 1))])]);
                                  ("TSLA", [])])
                    sandbox ["AAPL"; "TSLA"] idle Hlen)).
  reflexivity.
Defined.

(* ================================================================== *)
(** * Further properties of the flattening *)
(* ================================================================== *)

Lemma label_eqb_eq (a b : label) : label_eqb a b = true <-> a = b.
Proof.
  destruct a as [s|n], b as [t|m]; cbn; try (split; discriminate).
  - rewrite String.eqb_eq. split; [now intros -> | now intros [= ->]].
  - rewrite Nat.eqb_eq. split; [now intros -> | now intros [= ->]].
Qed.

Lemma label_eqb_refl (a : label) : label_eqb a a = true.
Proof. now apply label_eqb_eq. Qed.

Lemma label_eqb_neq (a b : label) : a <> b -> label_eqb a b = false.
Proof.
  intro H. destruct (label_eqb a b) eqn:E; [|reflexivity].
  apply label_eqb_eq in E. contradiction.
Qed.

Lemma mem_label_In (l : label) (ls : list label) : mem_label l ls = true <-> In l ls.
Proof.
  unfold mem_label. rewrite existsb_exists. split.
  - intros [x [Hin Hx]]. apply label_eqb_eq in Hx. now subst.
  - intro H. exists l. split; [exact H | apply label_eqb_refl].
Qed.

Lemma mem_label_false (l : label) (ls : list label) : mem_label l ls = false <-> ~ In l ls.
Proof.
  rewrite <- mem_label_In. destruct (mem_label l ls); split; congruence.
Qed.

Lemma union_labels_In (ss : list Series) (l : label) :
  In l (union_labels ss) <-> In l (flat_map (map fst) ss).
Proof.
  unfold union_labels.
  assert (G : forall ls acc,
             In l (fold_left (fun acc l' => if mem_label l' acc then acc
                                            else (acc ++ [l'])%list) ls acc)
             <-> In l acc \/ In l ls).
  { induction ls as [|x ls IH]; intro acc; cbn [fold_left].
    - cbn. tauto.
    - rewrite IH. destruct (mem_label x acc) eqn:E.
      + apply mem_label_In in E. cbn. split; [tauto|].
        intros [H | [<- | H]]; tauto.
      + rewrite in_app_iff. cbn. tauto. }
  rewrite G. cbn. tauto.
Qed.

Lemma lookup_reindex (ls : list label) (s : Series) (l : label) :
  lookup l (reindex ls s)
  = if mem_label l ls
    then Some (match lookup l s with Some c => c | None => NaN end)
    else None.
Proof.
  unfold lookup at 1, reindex, mem_label.
  induction ls as [|x ls IH]; cbn; [reflexivity|].
  destruct (label_eqb x l) eqn:E.
  - apply label_eqb_eq in E. subst x. now rewrite label_eqb_refl.
  - rewrite (label_eqb_neq l x); [exact IH|].
    intros ->. now rewrite label_eqb_refl in E.
Qed.

Lemma lookup_set_cell (s : Series) (l l' : label) (c : cell) :
  lookup l (set_cell s l' c) = if label_eqb l' l then Some c else lookup l s.
Proof.
  unfold lookup. induction s as [|[x cx] s IH]; cbn.
  - destruct (label_eqb l' l); reflexivity.
  - destruct (label_eqb x l') eqn:E; cbn.
    + apply label_eqb_eq in E. subst x. destruct (label_eqb l' l); reflexivity.
    + destruct (label_eqb x l) eqn:E'; [|exact IH].
      apply label_eqb_eq in E'. subst x.
      rewrite (label_eqb_neq l' l); [reflexivity|].
      intros ->. now rewrite label_eqb_refl in E.
Qed.

Lemma lookup_app (s1 s2 : Series) (l : label) :
  lookup l (s1 ++ s2)%list
  = match lookup l s1 with Some c => Some c | None => lookup l s2 end.
Proof.
  unfold lookup. induction s1 as [|[x cx] s1 IH]; cbn; [reflexivity|].
  destruct (label_eqb x l); [reflexivity | exact IH].
Qed.

Lemma lookup_filter (s : Series) (l n : label) :
  lookup l (filter (fun e => negb (label_eqb (fst e) n)) s)
  = if label_eqb l n then None else lookup l s.
Proof.
  unfold lookup. induction s as [|[x cx] s IH]; cbn.
  - destruct (label_eqb l n); reflexivity.
  - destruct (label_eqb x n) eqn:E; cbn.
    + rewrite IH. destruct (label_eqb l n) eqn:E'; [reflexivity|].
      rewrite (label_eqb_neq x l); [reflexivity|].
      apply label_eqb_eq in E. subst x. intros <-. now rewrite label_eqb_refl in E'.
    + destruct (label_eqb x l) eqn:E'.
      * apply label_eqb_eq in E'. subst x. now rewrite E.
      * exact IH.
Qed.

Lemma lookup_object (fields : list (string * json)) (k : string) :
  lookup (LStr k) (map (fun kv => (LStr (fst kv), Val (snd kv))) fields)
  = option_map Val (field k fields).
Proof.
  unfold lookup, field. induction fields as [|[x v] fields IH]; cbn; [reflexivity|].
  destruct (String.eqb x k); [reflexivity | exact IH].
Qed.

Lemma field_In (k : string) (obj : list (string * json)) :
  field k obj <> None <-> In k (map fst obj).
Proof.
  unfold field. induction obj as [|[x v] obj IH]; cbn; [tauto|].
  destruct (String.eqb x k) eqn:E.
  - apply String.eqb_eq in E. split; [now left | discriminate].
  - apply String.eqb_neq in E. rewrite IH. tauto.
Qed.

Lemma labels_set_cell (s : Series) (l : label) (c : cell) :
  map fst (set_cell s l c)
  = if mem_label l (map fst s) then map fst s else (map fst s ++ [l])%list.
Proof.
  unfold mem_label. induction s as [|[x cx] s IH]; cbn; [reflexivity|].
  destruct (label_eqb x l) eqn:E; cbn.
  - apply label_eqb_eq in E. subst x. now rewrite label_eqb_refl.
  - rewrite (label_eqb_neq l x) by (intros ->; now rewrite label_eqb_refl in E).
    cbn. rewrite IH. now destruct (existsb (label_eqb l) (map fst s)).
Qed.

Lemma labels_reindex (ls : list label) (s : Series) : map fst (reindex ls s) = ls.
Proof. unfold reindex. rewrite map_map. cbn. apply map_id. Qed.

Lemma rename_series_id (f : label -> label) (s : Series) :
  Forall (fun l => f l = l) (map fst s) -> rename_series f s = s.
Proof.
  unfold rename_series. induction s as [|[x cx] s IH]; cbn; [reflexivity|].
  intro H. inversion H; subst. cbn in *. now rewrite IH; [congruence|].
Qed.

Lemma combine_map_map {X Y Z : Type} (f : X -> Y) (g : X -> Z) (l : list X) :
  combine (map f l) (map g l) = map (fun x => (f x, g x)) l.
Proof. induction l as [|x l IH]; cbn; [reflexivity | now rewrite IH]. Qed.

Section FlattenRows.

Variable nested : string.
Variable d : batch.

(** The nested object is a column of its own, some symbol carries it, and
    no field of a nested object is named like a top-level key or like the
    [symbol] column. *)
Hypothesis nested_not_symbol : nested <> "symbol".
Hypothesis some_carries : exists e, In e d /\ field nested (snd e) <> None.
Hypothesis fields_apart :
  forall e fields k,
    In e d -> field nested (snd e) = Some (JObj fields) -> In k (map fst fields) ->
    k <> "symbol" /\ forall e', In e' d -> field k (snd e') = None.

Lemma top_labels_In (l : label) :
  In l (top_labels d) <-> exists e k, In e d /\ In k (map fst (snd e)) /\ l = LStr k.
Proof.
  unfold top_labels. rewrite union_labels_In, in_flat_map. split.
  - intros [s [Hs Hl]]. apply in_map_iff in Hs. destruct Hs as [e [<- He]].
    unfold object_series in Hl. rewrite map_map in Hl. apply in_map_iff in Hl.
    destruct Hl as [kv [<- Hkv]]. exists e, (fst kv). split; [exact He|].
    split; [now apply in_map | reflexivity].
  - intros [e [k [He [Hk ->]]]]. exists (object_series (snd e)). split.
    + apply in_map_iff. now exists e.
    + unfold object_series. rewrite map_map. cbn. apply in_map_iff in Hk.
      destruct Hk as [kv [<- Hkv]]. apply in_map_iff. now exists kv.
Qed.

Lemma left_labels_In (l : label) :
  In l (left_labels d) <-> l = LStr "symbol" \/ In l (top_labels d).
Proof.
  unfold left_labels. destruct (mem_label (LStr "symbol") (top_labels d)) eqn:E.
  - apply mem_label_In in E. split; [tauto | intros [-> | H]; assumption].
  - rewrite in_app_iff. cbn. split.
    + intros [H | [<- | []]]; [now right | now left].
    + intros [-> | H]; [right; now left | now left].
Qed.

Lemma right_labels_In (l : label) :
  In l (right_labels nested d) ->
  (exists n, l = LInt n)
  \/ exists e fields k,
      In e d /\ field nested (snd e) = Some (JObj fields)
      /\ In k (map fst fields) /\ l = LStr k.
Proof.
  unfold right_labels. rewrite union_labels_In, in_flat_map.
  intros [s [Hs Hl]]. apply in_map_iff in Hs. destruct Hs as [e [<- He]].
  unfold nested_cell in Hl.
  destruct (field nested (snd e)) as [[| b | q | t | items | fields]|] eqn:E;
    cbn [pd_Series map fst In] in Hl;
    try (destruct Hl as [<- | []]; left; now eexists); try (destruct Hl).
  - left. unfold enumerate in Hl. rewrite map_map in Hl. apply in_map_iff in Hl.
    destruct Hl as [ic [<- _]]. now eexists.
  - right. rewrite map_map in Hl. apply in_map_iff in Hl.
    destruct Hl as [kv [<- Hkv]]. exists e, fields, (fst kv).
    repeat split; try assumption. now apply in_map.
Qed.

Lemma labels_apart (l : label) :
  In l (left_labels d) -> In l (right_labels nested d) -> False.
Proof.
  intros Hl Hr. apply right_labels_In in Hr.
  destruct Hr as [[n ->] | [e [fields [k [He [Hf [Hk ->]]]]]]].
  - apply left_labels_In in Hl. destruct Hl as [Hl | Hl]; [discriminate|].
    apply top_labels_In in Hl. destruct Hl as [e [k [_ [_ Hl]]]]. discriminate.
  - destruct (fields_apart e fields k He Hf Hk) as [Hks Htop].
    apply left_labels_In in Hl. destruct Hl as [Hl | Hl]; [congruence|].
    apply top_labels_In in Hl. destruct Hl as [e' [k' [He' [Hk' Hl]]]].
    inversion Hl; subst k'. apply field_In in Hk'. apply Hk'. now apply Htop.
Qed.

Lemma nested_in_top : mem_label (LStr nested) (top_labels d) = true.
Proof.
  destruct some_carries as [e [He Hf]]. apply mem_label_In, top_labels_In.
  exists e, nested. split; [exact He|]. split; [now apply field_In | reflexivity].
Qed.

Lemma nested_in_left : mem_label (LStr nested) (left_labels d) = true.
Proof. apply mem_label_In, left_labels_In. right. apply mem_label_In, nested_in_top. Qed.

Lemma left_row_labels (e : string * list (string * json)) :
  map fst (left_row d e) = left_labels d.
Proof. unfold left_row, left_labels. now rewrite labels_set_cell, labels_reindex. Qed.

Lemma left_row_nested (e : string * list (string * json)) :
  match lookup (LStr nested) (left_row d e) with Some c => c | None => NaN end
  = nested_cell nested e.
Proof.
  unfold left_row. rewrite lookup_set_cell.
  rewrite (label_eqb_neq (LStr "symbol") (LStr nested)) by (intros [= H]; now symmetry in H).
  rewrite lookup_reindex, nested_in_top. unfold object_series, nested_cell.
  rewrite lookup_object. now destruct (field nested (snd e)).
Qed.

Lemma flatten_response_eq :
  flatten_response nested d
  = Ok (mk_oframe
          (filter (fun l => negb (label_eqb l (LStr nested)))
                  (left_labels d ++ right_labels nested d)%list)
          (map (flat_row nested d) d)).
Proof.
  unfold flatten_response, from_dict_transpose, frame_of_rows, osetitem.
  cbn [labels rows].
  fold (top_labels d).
  change (map (fun e => map (fun kv => (LStr (fst kv), Val (snd kv))) (snd e)) d)
    with (map (fun e => object_series (snd e)) d).
  fold (top_labels d). fold (left_labels d).
  rewrite (map_map (fun e => object_series (snd e)) (reindex (top_labels d))).
  rewrite combine_map_map, map_map. cbn [fst snd]. fold (left_row d).
  change (map (fun x => set_cell (reindex (top_labels d) (object_series (snd x)))
                                 (LStr "symbol") (Val (JStr (fst x)))) d)
    with (map (left_row d) d).
  unfold ogetitem. cbn [labels rows]. rewrite nested_in_left. cbn [rbind].
  rewrite map_map, (map_ext _ _ left_row_nested).
  assert (Hne : map (nested_cell nested) d <> []).
  { destruct some_carries as [e [He _]]. destruct d; [destruct He | discriminate]. }
  unfold apply_pd_Series.
  destruct (map (nested_cell nested) d) as [|c0 cs] eqn:Ecells; [congruence|].
  rewrite <- Ecells. clear Hne Ecells c0 cs. cbn [rbind].
  unfold frame_of_rows. rewrite (map_map (nested_cell nested) pd_Series).
  fold (right_labels nested d).
  rewrite (map_map (fun e => pd_Series (nested_cell nested e)) (reindex (right_labels nested d))).
  change (map (fun x => reindex (right_labels nested d) (pd_Series (nested_cell nested x))) d)
    with (map (right_row nested d) d).
  unfold merge_on_index. cbn [labels rows].
  assert (Hl : Forall (fun l => rename_overlap (right_labels nested d) "_x" l = l)
                      (left_labels d)).
  { apply Forall_forall. intros l Hl. unfold rename_overlap.
    destruct (mem_label l (right_labels nested d)) eqn:E; [|reflexivity].
    apply mem_label_In in E. destruct (labels_apart l Hl E). }
  assert (Hr : Forall (fun l => rename_overlap (left_labels d) "_y" l = l)
                      (right_labels nested d)).
  { apply Forall_forall. intros l Hr. unfold rename_overlap.
    destruct (mem_label l (left_labels d)) eqn:E; [|reflexivity].
    apply mem_label_In in E. destruct (labels_apart l E Hr). }
  rewrite (map_ext_Forall _ (fun l => l) Hl), (map_ext_Forall _ (fun l => l) Hr), !map_id.
  rewrite combine_map_map, map_map. cbn [fst snd].
  rewrite (map_ext
             (fun x => (rename_series (rename_overlap (right_labels nested d) "_x")
                                      (left_row d x)
                          ++ rename_series (rename_overlap (left_labels d) "_y")
                                           (right_row nested d x))%list)
             (fun x => (left_row d x ++ right_row nested d x)%list)).
  2: { intro e. rewrite !rename_series_id; [reflexivity | |].
       - unfold right_row. now rewrite labels_reindex.
       - now rewrite left_row_labels. }
  unfold drop_column. cbn [labels rows].
  assert (Hin : mem_label (LStr nested) (left_labels d ++ right_labels nested d)%list = true).
  { apply mem_label_In, in_app_iff. left. apply mem_label_In, nested_in_left. }
  rewrite Hin, map_map. reflexivity.
Qed.

End FlattenRows.

(** X19.  When some symbol of the response carries the nested object, and
    no field of a nested object is named like a top-level key or like
    [symbol], the flattening returns a frame with one row per symbol, in
    the order of the response, and without the nested column.  In the row
    of a symbol the [symbol] cell is the symbol, a top-level string is kept
    under its key, a string field of the symbol's nested object appears
    under its name, and for a symbol without the nested object the fields
    that other symbols have are NaN.  (The values are strings: numbers and
    nulls go through the dtype inference of pandas, which may turn a null
    into NaN and an integer into a double, and which is not modelled.) *)
Theorem flatten_response_rows :
  forall (nested : string) (d : batch),
    nested <> "symbol" ->
    (exists e, In e d /\ field nested (snd e) <> None) ->
    (forall e fields k,
        In e d -> field nested (snd e) = Some (JObj fields) -> In k (map fst fields) ->
        k <> "symbol" /\ forall e', In e' d -> field k (snd e') = None) ->
    exists df : ObjFrame,
      flatten_response nested d = Ok df
      /\ List.length (rows df) = List.length d
      /\ mem_label (LStr nested) (labels df) = false
      /\ forall (i : nat) (e : string * list (string * json)),
          nth_error d i = Some e ->
          at_row df i (LStr "symbol") = Some (Val (JStr (fst e)))
          /\ (forall k s,
                 k <> nested -> k <> "symbol" -> field k (snd e) = Some (JStr s) ->
                 at_row df i (LStr k) = Some (Val (JStr s)))
          /\ (forall fields k s,
                 field nested (snd e) = Some (JObj fields) ->
                 field k fields = Some (JStr s) ->
                 at_row df i (LStr k) = Some (Val (JStr s)))
          /\ (field nested (snd e) = None ->
              forall e' fields k,
                In e' d -> field nested (snd e') = Some (JObj fields) ->
                In k (map fst fields) ->
                at_row df i (LStr k) = Some NaN).
Proof.
  intros nested d Hsym Hsome Hfree.
  eexists. split; [exact (flatten_response_eq nested d Hsym Hsome Hfree)|].
  cbn [rows labels]. split; [apply length_map|]. split.
  { apply mem_label_false. intro H. apply filter_In in H. destruct H as [_ H].
    now rewrite label_eqb_refl in H. }
  intros i e Hi. unfold at_row. cbn [rows]. rewrite nth_error_map, Hi. cbn [option_map].
  assert (He : In e d) by exact (nth_error_In _ _ Hi).
  unfold flat_row.
  (* a field of a nested object is in no row before the merge *)
  assert (Hleft : forall e' fields k,
             In e' d -> field nested (snd e') = Some (JObj fields) ->
             In k (map fst fields) ->
             k <> nested /\ lookup (LStr k) (left_row d e) = None
             /\ mem_label (LStr k) (right_labels nested d) = true).
  { intros e' fields k He' Hf Hk.
    destruct (Hfree e' fields k He' Hf Hk) as [Hks Htop].
    split; [|split].
    - intros ->. rewrite (Htop e' He') in Hf. discriminate.
    - unfold left_row. rewrite lookup_set_cell.
      rewrite (label_eqb_neq (LStr "symbol") (LStr k)) by congruence.
      rewrite lookup_reindex.
      destruct (mem_label (LStr k) (top_labels d)) eqn:E; [|reflexivity].
      apply mem_label_In, top_labels_In in E.
      destruct E as [e'' [k' [He'' [Hk' Hl]]]]. inversion Hl; subst k'.
      apply field_In in Hk'. destruct Hk'. now apply Htop.
    - apply mem_label_In, union_labels_In, in_flat_map.
      exists (pd_Series (nested_cell nested e')). split.
      + apply in_map_iff. now exists e'.
      + unfold nested_cell. rewrite Hf. cbn [pd_Series]. rewrite map_map. cbn [fst].
        apply in_map_iff in Hk. destruct Hk as [kv [<- Hkv]].
        apply in_map_iff. now exists kv. }
  split; [|split; [|split]].
  - rewrite lookup_filter, (label_eqb_neq (LStr "symbol") (LStr nested)) by congruence.
    rewrite lookup_app. unfold left_row. rewrite lookup_set_cell, label_eqb_refl.
    reflexivity.
  - intros k s Hkn Hks Hf.
    rewrite lookup_filter, (label_eqb_neq (LStr k) (LStr nested)) by congruence.
    rewrite lookup_app. unfold left_row. rewrite lookup_set_cell.
    rewrite (label_eqb_neq (LStr "symbol") (LStr k)) by congruence.
    rewrite lookup_reindex.
    assert (Hmem : mem_label (LStr k) (top_labels d) = true).
    { apply mem_label_In, top_labels_In. exists e, k. split; [exact He|].
      split; [apply field_In; congruence | reflexivity]. }
    rewrite Hmem. unfold object_series. rewrite lookup_object, Hf. reflexivity.
  - intros fields k s Hf Hk.
    assert (Hin : In k (map fst fields)) by (apply field_In; congruence).
    destruct (Hleft e fields k He Hf Hin) as [Hkn [Hnone Hmem]].
    rewrite lookup_filter, (label_eqb_neq (LStr k) (LStr nested)) by congruence.
    rewrite lookup_app, Hnone. unfold right_row. rewrite lookup_reindex, Hmem.
    unfold nested_cell. rewrite Hf. cbn [pd_Series]. rewrite lookup_object, Hk.
    reflexivity.
  - intros Hmiss e' fields k He' Hf Hk.
    destruct (Hleft e' fields k He' Hf Hk) as [Hkn [Hnone Hmem]].
    rewrite lookup_filter, (label_eqb_neq (LStr k) (LStr nested)) by congruence.
    rewrite lookup_app, Hnone. unfold right_row. rewrite lookup_reindex, Hmem.
    unfold nested_cell. rewrite Hmiss. reflexivity.
Qed.

Lemma flatten_response_rows_witness :
  exists df : ObjFrame,
    get_symbol_stats_frame
      [("AAPL", [("stats", JObj [("companyName", JStr "Apple Inc.")]);
                 ("exchange", JStr "NASDAQ")]);
       ("TSLA", [("exchange", JStr "NASDAQ")])]
    = Ok df
    /\ List.length (rows df) = 2
    /\ at_row df 0 (LStr "companyName") = Some (Val (JStr "Apple Inc."))
    /\ at_row df 1 (LStr "companyName") = Some NaN
    /\ at_row df 1 (LStr "symbol") = Some (Val (JStr "TSLA"))
    /\ at_row df 1 (LStr "exchange") = Some (Val (JStr "NASDAQ")).
Proof.
  set (d := [("AAPL", [("stats", JObj [("companyName", JStr "Apple Inc.")]);
                       ("exchange", JStr "NASDAQ")]);
             ("TSLA", [("exchange", JStr "NASDAQ")])] : batch).
  assert (Hsym : "stats" <> "symbol") by discriminate.
  assert (Hsome : exists e, In e d /\ field "stats" (snd e) <> None).
  { exists ("AAPL", [("stats", JObj [("companyName", JStr "Apple Inc.")]);
                     ("exchange", JStr "NASDAQ")]).
    split; [now left | discriminate]. }
  assert (Hfree : forall e fields k,
             In e d -> field "stats" (snd e) = Some (JObj fields) ->
             In k (map fst fields) ->
             k <> "symbol" /\ forall e', In e' d -> field k (snd e') = None).
  { intros e fields k [<- | [<- | []]] Hf Hk; [|discriminate].
    cbn in Hf. injection Hf as <-. destruct Hk as [<- | []].
    split; [discriminate|]. intros e' [<- | [<- | []]]; reflexivity. }
  destruct (flatten_response_rows "stats" d Hsym Hsome Hfree)
    as [df [Hrun [Hlen [_ Hrows]]]].
  exists df. split; [exact Hrun|]. split; [exact Hlen|].
  destruct (Hrows 0 _ eq_refl) as [_ [_ [Hfield _]]].
  destruct (Hrows 1 _ eq_refl) as [Hsymbol [Htop [_ Hmissing]]].
  split; [exact (Hfield _ "companyName" _ eq_refl eq_refl)|].
  split; [refine (Hmissing eq_refl _ _ "companyName" (or_introl eq_refl) eq_refl _);
          now left|].
  split; [exact Hsymbol|].
  apply Htop; [discriminate | discriminate | reflexivity].
Defined.

(** X20.  The flattening raises [KeyError] for the nested key exactly when
    no symbol of the response carries the nested object (in particular for
    an empty response); one symbol that carries it is enough for the lookup
    of the column to succeed for all. *)
Theorem flatten_response_KeyError_iff :
  forall (nested : string) (d : batch),
    nested <> "symbol" ->
    (flatten_response nested d = Raise (KeyError nested)
     <-> forall e, In e d -> field nested (snd e) = None).
Proof.
  intros nested d Hsym. split.
  - intros Hrun e He.
    destruct (field nested (snd e)) as [v|] eqn:Ef; [exfalso | reflexivity].
    assert (Hsome : exists e, In e d /\ field nested (snd e) <> None).
    { exists e. split; [exact He | congruence]. }
    revert Hrun. unfold flatten_response, ogetitem.
    set (df1 := osetitem (from_dict_transpose d) (LStr "symbol") _).
    assert (E : labels df1 = left_labels d) by reflexivity.
    rewrite E, (nested_in_left nested d Hsome). cbn [rbind].
    assert (Hrows : List.length (rows df1) = List.length d).
    { subst df1. unfold osetitem, from_dict_transpose, frame_of_rows. cbn [rows].
      rewrite length_map, length_combine, !length_map. lia. }
    destruct (map _ (rows df1)) as [|c cs] eqn:Ec.
    { apply (f_equal (@List.length cell)) in Ec. rewrite length_map, Hrows in Ec.
      destruct d; [destruct He | discriminate]. }
    cbn [apply_pd_Series rbind]. unfold drop_column.
    destruct (mem_label (LStr nested) _); [discriminate|].
    intro H. inversion H as [Hs]. apply (f_equal String.length) in Hs.
    cbn in Hs. rewrite ?str_length_append in Hs. cbn in Hs. lia.
  - intro Hnone. apply flatten_response_KeyError; [exact Hsym|].
    apply Forall_forall. intros e He. apply Forall_forall. intros kv Hkv Hk.
    assert (Hin : In nested (map fst (snd e))) by (rewrite <- Hk; now apply in_map).
    apply field_In in Hin. apply Hin. now apply Hnone.
Qed.

Lemma flatten_response_KeyError_iff_witness :
  get_symbol_stats_frame [("AAPL", [("price", JNum (190 # 1))]); ("TSLA", [])]
  = Raise (KeyError "stats").
Proof.
  assert (Hsym : "stats" <> "symbol") by discriminate.
  apply (flatten_response_KeyError_iff "stats" _ Hsym).
  intros e [<- | [<- | []]]; reflexivity.
Defined.
